(** * adMat: status normalisation, size mapping, route handlers and the
      progress poller

    A shallow embedding of the TypeScript sources

      - [src/app/api/gen/route.ts]       (module [Gen])
      - [src/app/api/download/route.ts]  (modules [Download] and [ProgressOpenAI];
                                          the file holds two route sources)
      - [src/app/api/progress/route.ts]  (module [ProgressSoraV2])
      - [src/unnamed/part_001]           (module [Tracker], the ProgressTracker
                                          component)

    followed by the properties of the specification that were checked
    against them.

    Conventions of the embedding.  A JSON field is read at a primitive type
    or as absent; a number is an integer (printed in decimal, as JavaScript
    does below 10^21); a string is the sequence of its UTF-8 bytes.  An
    [async] function is a function of what [fetch] answers, and returns the
    calls it issued together with its outcome.  A lookup [o[k]] in an object
    literal goes through own properties first and [Object.prototype] next,
    as the language has it. *)

From stdpp Require Import gmap strings list pretty.
From Stdlib Require Import ZArith Ascii.

Local Open Scope string_scope.
Local Open Scope Z_scope.

(** ** JavaScript values and the operators the sources use *)

Module Js.

(** Payload fields are read at the primitive JSON types; [JUndefined] is an
    absent field.  Numbers are the integral ones. *)
Inductive prim : Type :=
| JUndefined
| JNull
| JBool (b : bool)
| JNum (n : Z)
| JStr (s : string).

(** A value an expression can produce: a primitive, or a built-in object
    found on the prototype chain of an object literal ([Builtin k] is the
    value [Object.prototype] holds under the property name [k]). *)
Inductive value : Type :=
| Prim (p : prim)
| Builtin (key : string).

Coercion Prim : prim >-> value.

(** ToBoolean. *)
Definition truthy_prim (p : prim) : bool :=
  match p with
  | JUndefined | JNull => false
  | JBool b => b
  | JNum n => negb (Z.eqb n 0)
  | JStr s => negb (String.eqb s "")
  end.

Definition truthy (v : value) : bool :=
  match v with
  | Prim p => truthy_prim p
  | Builtin _ => true
  end.

(** [a || b] *)
Definition or (a b : value) : value := if truthy a then a else b.

(** ToString of a primitive, as in a template literal or a property key. *)
Definition toStr (p : prim) : string :=
  match p with
  | JUndefined => "undefined"
  | JNull => "null"
  | JBool true => "true"
  | JBool false => "false"
  | JNum n => pretty n
  | JStr s => s
  end.

(** [v === 'lit'] for a string literal. *)
Definition strictEqStr (p : prim) (lit : string) : bool :=
  match p with
  | JStr s => String.eqb s lit
  | _ => false
  end.

(** [typeof v === 'string'] *)
Definition isString (p : prim) : bool :=
  match p with JStr _ => true | _ => false end.

(** The property names of [Object.prototype]; every object literal inherits
    them, and each holds a function (or, for [__proto__], the prototype
    object itself). *)
Definition objectPrototypeKeys : list string :=
  [ "constructor"; "hasOwnProperty"; "isPrototypeOf"; "propertyIsEnumerable";
    "toLocaleString"; "toString"; "valueOf"; "__proto__";
    "__defineGetter__"; "__defineSetter__"; "__lookupGetter__";
    "__lookupSetter__" ].

Definition inherited (k : string) : bool :=
  bool_decide (k ∈ objectPrototypeKeys).

(** [o[k]] on an object literal with own properties [o]: the own property
    if there is one, else what the prototype holds, else [undefined]. *)
Definition getProp (o : gmap string value) (k : string) : value :=
  match o !! k with
  | Some v => v
  | None => if inherited k then Builtin k else JUndefined
  end.

(** String.prototype.trim on the UTF-8 bytes of a string: white space and
    line terminators are removed at both ends. *)
Definition ws1 (a : ascii) : bool :=
  let n := N_of_ascii a in
  ((9 <=? n) && (n <=? 13) || (n =? 32))%N.

(** U+00A0 *)
Definition ws2 (a b : ascii) : bool :=
  ((N_of_ascii a =? 194) && (N_of_ascii b =? 160))%N.

(** U+1680, U+2000..U+200A, U+2028, U+2029, U+202F, U+205F, U+3000, U+FEFF *)
Definition ws3 (a b c : ascii) : bool :=
  let x := N_of_ascii a in
  let y := N_of_ascii b in
  let z := N_of_ascii c in
  ((x =? 225) && (y =? 154) && (z =? 128)
   || (x =? 226) && (y =? 128)
      && ((128 <=? z) && (z <=? 138) || (z =? 168) || (z =? 169) || (z =? 175))
   || (x =? 226) && (y =? 129) && (z =? 159)
   || (x =? 227) && (y =? 128) && (z =? 128)
   || (x =? 239) && (y =? 187) && (z =? 191))%N.

Fixpoint trimStart (s : string) : string :=
  match s with
  | String a s1 =>
      if ws1 a then trimStart s1 else
      match s1 with
      | String b s2 =>
          if ws2 a b then trimStart s2 else
          match s2 with
          | String c s3 => if ws3 a b c then trimStart s3 else s
          | EmptyString => s
          end
      | EmptyString => s
      end
  | EmptyString => s
  end.

(** The same scan on the reversed string, the bytes of a sequence coming
    last-first. *)
Fixpoint trimStartRev (s : string) : string :=
  match s with
  | String a s1 =>
      if ws1 a then trimStartRev s1 else
      match s1 with
      | String b s2 =>
          if ws2 b a then trimStartRev s2 else
          match s2 with
          | String c s3 => if ws3 c b a then trimStartRev s3 else s
          | EmptyString => s
          end
      | EmptyString => s
      end
  | EmptyString => s
  end.

Definition trim (s : string) : string :=
  String.rev (trimStartRev (String.rev (trimStart s))).

End Js.

Import Js.

Definition str (s : string) : value := Prim (JStr s).
Definition num (n : Z) : value := Prim (JNum n).

(** [a || b] on two primitives. *)
Definition orPrim (a b : prim) : prim := if truthy_prim a then a else b.

(** [!v] for a value that is a string or absent ([process.env.X],
    [searchParams.get('id')]). *)
Definition missing (v : option string) : bool :=
  match v with
  | Some s => String.eqb s ""
  | None => true
  end.

(** A string or absent value inside a template literal. *)
Definition interpolate (v : option string) : string :=
  match v with
  | Some s => s
  | None => "undefined"
  end.

(** The outcome of an [async] function body: a returned value or a thrown
    error, carried by its [message]. *)
Inductive result (A : Type) : Type :=
| Return (a : A)
| Throw (message : string).

Arguments Return {A} a.
Arguments Throw {A} message.

(** ** The upstream service, as [fetch] shows it to the handlers *)

Module Upstream.

(** The fields the sources read from an upstream JSON object.
    [error_message] is [error?.message]. *)
Record Payload : Type := {
  id : prim;
  status : prim;
  prompt : prim;
  url : prim;
  video_url : prim;
  download_url : prim;
  thumbnail_url : prim;
  duration : prim;
  resolution : prim;
  style : prim;
  aspect_ratio : prim;
  created_at : prim;
  updated_at : prim;
  error : prim;
  error_message : prim;
  message : prim;
  progress : prim;
  current_step : prim;
  estimated_time_remaining : prim
}.

(** What [response.json()] gives: a rejection (the text is not JSON), the
    value [null] (any property access on it raises; [msg] is the message
    of that error), or an object, with the truthy value of [data?.[0]]
    when it has one. *)
Inductive Body : Type :=
| Unparsable (msg : string)
| NullBody (msg : string)
| Object (data : Payload) (first : option Payload).

Record Response : Type := {
  code : Z;
  statusText : string;
  body : Body
}.

(** [response.ok] *)
Definition ok (r : Response) : bool := (200 <=? code r) && (code r <=? 299).

(** [await fetch(...)]: the promise rejects or resolves to a response. *)
Inductive Outcome : Type :=
| Rejected (msg : string)
| Responded (r : Response).

(** The JSON body of the creation call, before [JSON.stringify]. *)
Record CreateBody : Type := {
  model : string;
  create_prompt : string;
  size : value;
  create_duration : prim;
  n : Z
}.

(** One call of [fetch]. *)
Record Call : Type := {
  input : string;
  method : string;
  authorization : string;
  content : option CreateBody
}.

Definition empty : Payload :=
  {| id := JUndefined; status := JUndefined; prompt := JUndefined;
     url := JUndefined; video_url := JUndefined; download_url := JUndefined;
     thumbnail_url := JUndefined; duration := JUndefined;
     resolution := JUndefined; style := JUndefined;
     aspect_ratio := JUndefined; created_at := JUndefined;
     updated_at := JUndefined; error := JUndefined;
     error_message := JUndefined; message := JUndefined;
     progress := JUndefined; current_step := JUndefined;
     estimated_time_remaining := JUndefined |}.

End Upstream.

(** What the process and the runtime provide: the environment variables
    read at start-up, the readings of [new Date().toISOString()] in the
    order they are taken, and [builtinProp k1 k2], the outcome of reading
    the property [k2] of the built-in object that [Object.prototype] holds
    under [k1] (a value, or the error a getter raises). *)
Record Env : Type := {
  OPENAI_API_KEY : option string;
  SORA_V2_API_KEY : option string;
  SORA_V2_API_ENDPOINT : option string;
  clock : nat -> string;
  builtinProp : string -> string -> result value
}.

(** ** The internal types ([@/types]) as the sources build them *)

Record SoraVideoRequest : Type := {
  prompt : prim;
  duration : prim;
  resolution : prim;
  style : prim;
  aspectRatio : prim
}.

Module Video.
Record SoraVideoResponse : Type := {
  id : prim;
  status : value;
  prompt : prim;
  videoUrl : prim;
  thumbnailUrl : prim;
  duration : prim;
  resolution : prim;
  style : prim;
  aspectRatio : prim;
  createdAt : prim;
  updatedAt : prim;
  error : prim
}.
End Video.

Module Progress.
Record GenerationProgress : Type := {
  id : prim;
  progress : value;
  status : value;
  currentStep : prim;
  estimatedTimeRemaining : prim
}.
End Progress.

(** The envelope of [NextResponse.json], with its HTTP status. *)
Module Api.

Record ApiResponse (D : Type) : Type := {
  success : bool;
  data : option D;
  error : option string;
  message : option string
}.

Arguments success {D} _.
Arguments data {D} _.
Arguments error {D} _.
Arguments message {D} _.

Record HttpResponse (D : Type) : Type := {
  http_status : Z;
  json : ApiResponse D
}.

Arguments http_status {D} _.
Arguments json {D} _.

Definition failure {D : Type} (code : Z) (err : string) : HttpResponse D :=
  {| http_status := code;
     json := {| success := false; data := None; error := Some err;
                message := None |} |}.

End Api.

Import Api.

(** The request body as [await request.json()] gives it: a rejection or
    [null] (both end in the handler's [catch] with the error's message),
    or an object. *)
Inductive RequestBody : Type :=
| BadBody (msg : string)
| Fields (body : SoraVideoRequest).

(** The string held by a value that the guards before the use have shown
    to be a string ([body.prompt] after validation). *)
Definition asString (p : prim) : string :=
  match p with
  | JStr s => s
  | _ => ""
  end.

(** The readings of the clock taken for [createdAt] and [updatedAt]: the
    right operand of [||] is evaluated only when the left one is falsy. *)
Definition stampCreated (env : Env) (created_at : prim) : prim :=
  orPrim created_at (JStr (clock env 0%nat)).

Definition stampUpdated (env : Env) (created_at updated_at : prim) : prim :=
  orPrim updated_at
         (JStr (clock env (if truthy_prim created_at then 0%nat else 1%nat))).

(** ** src/app/api/gen/route.ts *)

Module Gen.

Definition OPENAI_API_BASE : string := "https://api.openai.com/v1".

Definition sizeMap : gmap string value :=
  {[ "720p" := str "1280x720";
     "1080p" := str "1920x1080";
     "4k" := str "3840x2160" ]}.

Definition aspectRatioSizeMap : gmap string (gmap string value) :=
  {[ "16:9" := {[ "720p" := str "1280x720"; "1080p" := str "1920x1080";
                  "4k" := str "3840x2160" ]};
     "9:16" := {[ "720p" := str "720x1280"; "1080p" := str "1080x1920";
                  "4k" := str "2160x3840" ]};
     "1:1" := {[ "720p" := str "720x720"; "1080p" := str "1080x1080";
                 "4k" := str "2160x2160" ]} ]}.

(** [aspectRatioSizeMap[aspectRatio]?.[resolution]] *)
Definition aspectSize (env : Env) (aspectRatio resolution : string)
    : result value :=
  match aspectRatioSizeMap !! aspectRatio with
  | Some row => Return (getProp row resolution)
  | None =>
      if inherited aspectRatio then builtinProp env aspectRatio resolution
      else Return (Prim JUndefined)
  end.

(** Lines 107-109 of [callSoraV2API]: the [size] sent upstream. *)
Definition requestSize (env : Env) (request : SoraVideoRequest)
    : result value :=
  let resolution := toStr (orPrim (resolution request) (JStr "1080p")) in
  let aspectRatio := toStr (orPrim (aspectRatio request) (JStr "16:9")) in
  match aspectSize env aspectRatio resolution with
  | Return byAspect =>
      Return (or (or byAspect (getProp sizeMap resolution)) (str "1920x1080"))
  | Throw msg => Throw msg
  end.

Definition statusMap : gmap string value :=
  {[ "queued" := str "pending";
     "in_progress" := str "processing";
     "processing" := str "processing";
     "succeeded" := str "completed";
     "completed" := str "completed";
     "failed" := str "failed";
     "cancelled" := str "failed" ]}.

Definition mapSoraStatus (status : prim) : value :=
  or (getProp statusMap (toStr status)) (str "pending").

(** The message of the error thrown on a response that is not [ok]. *)
Definition upstreamError (r : Upstream.Response) : result string :=
  match Upstream.body r with
  | Upstream.NullBody msg => Throw msg
  | b =>
      let errorData :=
        match b with Upstream.Object d _ => d | _ => Upstream.empty end in
      let errorMessage :=
        orPrim (orPrim (Upstream.error_message errorData)
                       (Upstream.message errorData))
               (JStr (Upstream.statusText r)) in
      Return ("Sora API error: " +:+ pretty (Upstream.code r) +:+ " - "
              +:+ toStr errorMessage)
  end.

Definition throwUpstream {A : Type} (r : Upstream.Response) : result A :=
  match upstreamError r with
  | Return m => Throw m
  | Throw m => Throw m
  end.

Definition callSoraV2API (env : Env) (fetch : Upstream.Call -> Upstream.Outcome)
    (request : SoraVideoRequest)
    : list Upstream.Call * result Video.SoraVideoResponse :=
  match requestSize env request with
  | Throw msg => ([], Throw msg)
  | Return size =>
  let call :=
    {| Upstream.input := OPENAI_API_BASE +:+ "/videos/generations";
       Upstream.method := "POST";
       Upstream.authorization := "Bearer " +:+ interpolate (OPENAI_API_KEY env);
       Upstream.content :=
         Some {| Upstream.model := "sora";
                 Upstream.create_prompt := trim (asString (prompt request));
                 Upstream.size := size;
                 Upstream.create_duration := orPrim (duration request) (JNum 10);
                 Upstream.n := 1 |} |} in
  ([call],
   match fetch call with
   | Upstream.Rejected msg => Throw msg
   | Upstream.Responded response =>
       if negb (Upstream.ok response) then throwUpstream response
       else
         match Upstream.body response with
         | Upstream.Unparsable msg => Throw msg
         | Upstream.NullBody msg => Throw msg
         | Upstream.Object data first =>
             let videoData :=
               match first with Some v => v | None => data end in
             Return
               {| Video.id := Upstream.id videoData;
                  Video.status := mapSoraStatus (Upstream.status videoData);
                  Video.prompt := JStr (trim (asString (prompt request)));
                  Video.videoUrl :=
                    orPrim (Upstream.url videoData) (Upstream.video_url videoData);
                  Video.thumbnailUrl := Upstream.thumbnail_url videoData;
                  Video.duration := orPrim (duration request) (JNum 10);
                  Video.resolution := orPrim (resolution request) (JStr "1080p");
                  Video.style := orPrim (style request) (JStr "realistic");
                  Video.aspectRatio := orPrim (aspectRatio request) (JStr "16:9");
                  Video.createdAt :=
                    stampCreated env (Upstream.created_at videoData);
                  Video.updatedAt :=
                    stampUpdated env (Upstream.created_at videoData)
                                 (Upstream.updated_at videoData);
                  Video.error := Upstream.error videoData |}
         end
   end)
  end.

Definition POST (env : Env) (fetch : Upstream.Call -> Upstream.Outcome)
    (request : RequestBody)
    : list Upstream.Call * HttpResponse Video.SoraVideoResponse :=
  match request with
  | BadBody msg => ([], failure 500 msg)
  | Fields body =>
      if negb (truthy_prim (prompt body))
         || negb (isString (prompt body))
         || (String.length (trim (asString (prompt body))) =? 0)%nat
      then ([], failure 400 "Prompt is required and must be a non-empty string")
      else if missing (OPENAI_API_KEY env)
      then ([], failure 500 "OpenAI API key is not configured")
      else
        let '(calls, soraResponse) := callSoraV2API env fetch body in
        (calls,
         match soraResponse with
         | Return v =>
             {| http_status := 200;
                json := {| success := true; data := Some v; error := None;
                           message :=
                             Some "Video generation started successfully" |} |}
         | Throw errorMessage => failure 500 errorMessage
         end)
  end.

Definition getVideoStatusFromSoraV2 (env : Env)
    (fetch : Upstream.Call -> Upstream.Outcome) (videoId : string)
    : list Upstream.Call * result Video.SoraVideoResponse :=
  let call :=
    {| Upstream.input := OPENAI_API_BASE +:+ "/videos/generations/" +:+ videoId;
       Upstream.method := "GET";
       Upstream.authorization := "Bearer " +:+ interpolate (OPENAI_API_KEY env);
       Upstream.content := None |} in
  ([call],
   match fetch call with
   | Upstream.Rejected msg => Throw msg
   | Upstream.Responded response =>
       if negb (Upstream.ok response) then
         if Upstream.code response =? 404 then Throw "Video not found"
         else throwUpstream response
       else
         match Upstream.body response with
         | Upstream.Unparsable msg => Throw msg
         | Upstream.NullBody msg => Throw msg
         | Upstream.Object data _ =>
             Return
               {| Video.id := Upstream.id data;
                  Video.status := mapSoraStatus (Upstream.status data);
                  Video.prompt := orPrim (Upstream.prompt data) (JStr "");
                  Video.videoUrl :=
                    orPrim (Upstream.url data) (Upstream.video_url data);
                  Video.thumbnailUrl := Upstream.thumbnail_url data;
                  Video.duration := Upstream.duration data;
                  Video.resolution := Upstream.resolution data;
                  Video.style := Upstream.style data;
                  Video.aspectRatio := Upstream.aspect_ratio data;
                  Video.createdAt := stampCreated env (Upstream.created_at data);
                  Video.updatedAt :=
                    stampUpdated env (Upstream.created_at data)
                                 (Upstream.updated_at data);
                  Video.error := Upstream.error data |}
         end
   end).

End Gen.

(** ** src/app/api/download/route.ts, the download route *)

Module Download.

Definition OPENAI_API_BASE : string := "https://api.openai.com/v1".

Definition getVideoDownloadUrlFromSoraV2 (env : Env)
    (fetch : Upstream.Call -> Upstream.Outcome) (videoId : string)
    : list Upstream.Call * result prim :=
  let call :=
    {| Upstream.input := OPENAI_API_BASE +:+ "/videos/generations/" +:+ videoId;
       Upstream.method := "GET";
       Upstream.authorization := "Bearer " +:+ interpolate (OPENAI_API_KEY env);
       Upstream.content := None |} in
  ([call],
   match fetch call with
   | Upstream.Rejected msg => Throw msg
   | Upstream.Responded response =>
       if negb (Upstream.ok response) then
         if Upstream.code response =? 404 then Throw "Video not found"
         else Gen.throwUpstream response
       else
         match Upstream.body response with
         | Upstream.Unparsable msg => Throw msg
         | Upstream.NullBody msg => Throw msg
         | Upstream.Object data _ =>
             if negb (strictEqStr (Upstream.status data) "succeeded")
                && negb (strictEqStr (Upstream.status data) "completed")
             then Throw ("Video is not ready for download. Current status: "
                         +:+ toStr (Upstream.status data))
             else
               let videoUrl :=
                 orPrim (orPrim (Upstream.url data) (Upstream.video_url data))
                        (Upstream.download_url data) in
               if negb (truthy_prim videoUrl) then Throw "Video URL not available"
               else Return videoUrl
         end
   end).

End Download.

(** ** src/app/api/download/route.ts, the progress route it also holds
       (the OpenAI integration) *)

Module ProgressOpenAI.

Definition OPENAI_API_BASE : string := "https://api.openai.com/v1".

Definition statusMap : gmap string value :=
  {[ "queued" := str "pending";
     "in_progress" := str "processing";
     "processing" := str "processing";
     "succeeded" := str "completed";
     "completed" := str "completed";
     "failed" := str "failed";
     "cancelled" := str "failed" ]}.

Definition mapSoraStatus (status : prim) : value :=
  or (getProp statusMap (toStr status)) (str "pending").

Definition statusToProgress : gmap string value :=
  {[ "queued" := num 0;
     "in_progress" := num 50;
     "processing" := num 50;
     "succeeded" := num 100;
     "completed" := num 100;
     "failed" := num 0 ]}.

(** Lines 180-187: the record built from the upstream object. *)
Definition transform (data : Upstream.Payload) : Progress.GenerationProgress :=
  {| Progress.id := Upstream.id data;
     Progress.progress :=
       or (or (Upstream.progress data)
              (getProp statusToProgress (toStr (Upstream.status data))))
          (num 0);
     Progress.status := mapSoraStatus (Upstream.status data);
     Progress.currentStep :=
       orPrim (Upstream.current_step data) (Upstream.status data);
     Progress.estimatedTimeRemaining := Upstream.estimated_time_remaining data |}.

Definition getProgressFromSoraV2 (env : Env)
    (fetch : Upstream.Call -> Upstream.Outcome) (videoId : string)
    : list Upstream.Call * result Progress.GenerationProgress :=
  let call :=
    {| Upstream.input := OPENAI_API_BASE +:+ "/videos/generations/" +:+ videoId;
       Upstream.method := "GET";
       Upstream.authorization := "Bearer " +:+ interpolate (OPENAI_API_KEY env);
       Upstream.content := None |} in
  ([call],
   match fetch call with
   | Upstream.Rejected msg => Throw msg
   | Upstream.Responded response =>
       if negb (Upstream.ok response) then
         if Upstream.code response =? 404 then Throw "Video not found"
         else Gen.throwUpstream response
       else
         match Upstream.body response with
         | Upstream.Unparsable msg => Throw msg
         | Upstream.NullBody msg => Throw msg
         | Upstream.Object data _ => Return (transform data)
         end
   end).

(** [videoId] is [searchParams.get('id')]. *)
Definition GET (env : Env) (fetch : Upstream.Call -> Upstream.Outcome)
    (videoId : option string)
    : list Upstream.Call * HttpResponse Progress.GenerationProgress :=
  if missing videoId then ([], failure 400 "Video ID is required")
  else if missing (OPENAI_API_KEY env)
  then ([], failure 500 "OpenAI API key is not configured")
  else
    let '(calls, progress) :=
      getProgressFromSoraV2 env fetch (interpolate videoId) in
    (calls,
     match progress with
     | Return p =>
         {| http_status := 200;
            json := {| success := true; data := Some p; error := None;
                       message := None |} |}
     | Throw errorMessage => failure 500 errorMessage
     end).

End ProgressOpenAI.

(** ** src/app/api/progress/route.ts (the SoraV2 integration) *)

Module ProgressSoraV2.

Definition SORA_API_ENDPOINT (env : Env) : string :=
  if missing (SORA_V2_API_ENDPOINT env) then "https://api.sora.v2/v1"
  else interpolate (SORA_V2_API_ENDPOINT env).

(** Lines 69-76: the record built from the upstream object. *)
Definition transform (data : Upstream.Payload) : Progress.GenerationProgress :=
  {| Progress.id := Upstream.id data;
     Progress.progress := or (Upstream.progress data) (num 0);
     Progress.status := Upstream.status data;
     Progress.currentStep := Upstream.current_step data;
     Progress.estimatedTimeRemaining := Upstream.estimated_time_remaining data |}.

Definition getProgressFromSoraV2 (env : Env)
    (fetch : Upstream.Call -> Upstream.Outcome) (videoId : string)
    : list Upstream.Call * result Progress.GenerationProgress :=
  let call :=
    {| Upstream.input :=
         SORA_API_ENDPOINT env +:+ "/videos/" +:+ videoId +:+ "/progress";
       Upstream.method := "GET";
       Upstream.authorization := "Bearer " +:+ interpolate (SORA_V2_API_KEY env);
       Upstream.content := None |} in
  ([call],
   match fetch call with
   | Upstream.Rejected msg => Throw msg
   | Upstream.Responded response =>
       if negb (Upstream.ok response) then
         if Upstream.code response =? 404 then Throw "Video not found"
         else
           match Upstream.body response with
           | Upstream.NullBody msg => Throw msg
           | b =>
               let errorData :=
                 match b with
                 | Upstream.Object d _ => d
                 | _ => Upstream.empty
                 end in
               Throw ("SoraV2 API error: " +:+ pretty (Upstream.code response)
                      +:+ " - "
                      +:+ toStr (orPrim (Upstream.message errorData)
                                        (JStr (Upstream.statusText response))))
           end
       else
         match Upstream.body response with
         | Upstream.Unparsable msg => Throw msg
         | Upstream.NullBody msg => Throw msg
         | Upstream.Object data _ => Return (transform data)
         end
   end).

Definition GET (env : Env) (fetch : Upstream.Call -> Upstream.Outcome)
    (videoId : option string)
    : list Upstream.Call * HttpResponse Progress.GenerationProgress :=
  if missing videoId then ([], failure 400 "Video ID is required")
  else if missing (SORA_V2_API_KEY env)
  then ([], failure 500 "SoraV2 API key is not configured")
  else
    let '(calls, progress) :=
      getProgressFromSoraV2 env fetch (interpolate videoId) in
    (calls,
     match progress with
     | Return p =>
         {| http_status := 200;
            json := {| success := true; data := Some p; error := None;
                       message := None |} |}
     | Throw _ => failure 500 "Internal server error"
     end).

End ProgressSoraV2.

(** ** src/unnamed/part_001: the ProgressTracker component

    The component holds the React state [progress] and [error].  Each run
    of the effect body is an activation with its own [isCancelled] flag and
    interval; the closures of an activation keep running after its cleanup,
    on the state of the one component.  The [onComplete] of the page
    ([handleGenerationComplete], three state setters) returns normally. *)

Module Tracker.

(** How a call of [SoraVideoAPI.getProgress] settles: with an envelope, or
    with a thrown value ([Some m] for an [Error] with message [m]). *)
Inductive Settled : Type :=
| Fulfilled (response : ApiResponse Progress.GenerationProgress)
| Failed (err : option string).

(** What a closure of an activation does to the world outside it. *)
Inductive Effect : Type :=
| GetProgress (videoId : string)
| SetProgress (p : Progress.GenerationProgress)
| SetError (e : string)
| OnComplete.

Record Activation : Type := {
  videoId : string;
  isCancelled : bool;
  inFlight : nat;
  interval : bool
}.

(** The component before its mount, while mounted, and after its
    teardown. *)
Inductive Phase : Type := Fresh | Mounted | TornDown.

Record State : Type := {
  phase : Phase;
  progress : option Progress.GenerationProgress;
  error : option string;
  activations : list Activation;
  current : option nat;
  log : list (nat * Effect)
}.

Inductive Event : Type :=
| Render (videoId : string)
| Unmount
| Tick (i : nat)
| Settle (i : nat) (r : Settled).

Definition fresh : State :=
  {| phase := Fresh; progress := None; error := None; activations := [];
     current := None; log := [] |}.

(** [status === 'lit'] on a field of the envelope's data. *)
Definition statusIs (p : Progress.GenerationProgress) (lit : string) : bool :=
  match Progress.status p with
  | Prim s => strictEqStr s lit
  | Builtin _ => false
  end.

(** The cleanup function of activation [i]. *)
Definition cleanup (i : nat) (s : State) : State :=
  match activations s !! i with
  | Some a =>
      {| phase := phase s; progress := progress s; error := error s;
         activations :=
           <[i := {| videoId := videoId a; isCancelled := true;
                     inFlight := inFlight a; interval := false |}]>
             (activations s);
         current := None; log := log s |}
  | None => s
  end.

Definition mounted (s : State) : State :=
  {| phase := Mounted; progress := progress s; error := error s;
     activations := activations s; current := current s; log := log s |}.

Definition tornDown (s : State) : State :=
  {| phase := TornDown; progress := progress s; error := error s;
     activations := activations s; current := current s; log := log s |}.

(** The effect body, run for [vid]: nothing for an empty id; else a fresh
    flag, the initial [fetchProgress()] and [setInterval]. *)
Definition activate (vid : string) (s : State) : State :=
  if String.eqb vid "" then mounted s
  else
    let i := length (activations s) in
    {| phase := Mounted; progress := progress s; error := error s;
       activations :=
         activations s ++
         [{| videoId := vid; isCancelled := false; inFlight := 1;
             interval := true |}];
       current := Some i;
       log := (i, GetProgress vid) :: log s |}.

(** [fetchProgress] up to its [await]. *)
Definition fetchProgress_call (i : nat) (a : Activation) (s : State) : State :=
  if isCancelled a then s
  else
    {| phase := phase s; progress := progress s; error := error s;
       activations :=
         <[i := {| videoId := videoId a; isCancelled := false;
                   inFlight := S (inFlight a); interval := interval a |}]>
           (activations s);
       current := current s;
       log := (i, GetProgress (videoId a)) :: log s |}.

Definition setFlag (i : nat) (a : Activation) (flag : bool) (n : nat)
    (acts : list Activation) : list Activation :=
  <[i := {| videoId := videoId a; isCancelled := flag; inFlight := n;
            interval := interval a |}]> acts.

(** [fetchProgress] from its [await] on, for a call of activation [i] that
    settles with [r]; [n] is the number of calls still in flight. *)
Definition fetchProgress_resume (i : nat) (a : Activation) (n : nat)
    (r : Settled) (s : State) : State :=
  let idle :=
    {| phase := phase s; progress := progress s; error := error s;
       activations := setFlag i a (isCancelled a) n (activations s);
       current := current s; log := log s |} in
  match r with
  | Fulfilled response =>
      if isCancelled a then idle
      else
        match success response, data response with
        | true, Some d =>
            if statusIs d "completed" then
              {| phase := phase s; progress := Some d; error := error s;
                 activations := setFlag i a true n (activations s);
                 current := current s;
                 log := (i, OnComplete) :: (i, SetProgress d) :: log s |}
            else if statusIs d "failed" then
              {| phase := phase s; progress := Some d;
                 error := Some "Video generation failed";
                 activations := setFlag i a true n (activations s);
                 current := current s;
                 log := (i, SetError "Video generation failed")
                        :: (i, SetProgress d) :: log s |}
            else
              {| phase := phase s; progress := Some d; error := error s;
                 activations := setFlag i a false n (activations s);
                 current := current s;
                 log := (i, SetProgress d) :: log s |}
        | _, _ =>
            let e :=
              if missing (Api.error response)
              then "Failed to fetch progress"
              else interpolate (Api.error response) in
            {| phase := phase s; progress := progress s; error := Some e;
               activations := setFlag i a false n (activations s);
               current := current s;
               log := (i, SetError e) :: log s |}
        end
  | Failed err =>
      if isCancelled a then idle
      else
        let e :=
          match err with
          | Some m => m
          | None => "An unexpected error occurred"
          end in
        {| phase := phase s; progress := progress s; error := Some e;
           activations := setFlag i a false n (activations s);
           current := current s;
           log := (i, SetError e) :: log s |}
  end.

(** One step of the component.  [Render] is a run of the effect (the
    mount, or a change of [videoId] or [onComplete] while mounted): the
    cleanup of the activation in place, then the body.  [Unmount] is the
    teardown, after which the component is not rendered again.  A [Tick]
    needs the interval of [i] to be set, a [Settle] a call of [i] in
    flight. *)
Definition step (s : State) (e : Event) : option State :=
  match e with
  | Render vid =>
      match phase s with
      | TornDown => None
      | _ =>
          Some (activate vid
                  match current s with
                  | Some i => cleanup i s
                  | None => s
                  end)
      end
  | Unmount =>
      match phase s with
      | Mounted =>
          Some (tornDown
                  match current s with
                  | Some i => cleanup i s
                  | None => s
                  end)
      | _ => None
      end
  | Tick i =>
      match activations s !! i with
      | Some a => if interval a then Some (fetchProgress_call i a s) else None
      | None => None
      end
  | Settle i r =>
      match activations s !! i with
      | Some a =>
          match inFlight a with
          | S n => Some (fetchProgress_resume i a n r s)
          | O => None
          end
      | None => None
      end
  end.

Fixpoint run (s : State) (es : list Event) : option State :=
  match es with
  | [] => Some s
  | e :: es' =>
      match step s e with
      | Some s' => run s' es'
      | None => None
      end
  end.

(** The effects of activation [i] in a log, newest first. *)
Fixpoint effectsOf (i : nat) (l : list (nat * Effect)) : list Effect :=
  match l with
  | [] => []
  | (j, e) :: l' => if Nat.eqb j i then e :: effectsOf i l' else effectsOf i l'
  end.

Definition isOnComplete (e : Effect) : bool :=
  match e with OnComplete => true | _ => false end.

Definition isGetProgress (e : Effect) : bool :=
  match e with GetProgress _ => true | _ => false end.

Definition completions (i : nat) (s : State) : nat :=
  length (List.filter isOnComplete (effectsOf i (log s))).

Definition fetches (i : nat) (s : State) : nat :=
  length (List.filter isGetProgress (effectsOf i (log s))).

End Tracker.

(** ** src/app/api/gen/route.ts, the query handler ([GET], lines 51-89) *)

Module Query.

(** The [data] of the envelope: one record, or the list of all. *)
Inductive Data : Type :=
| One (v : Video.SoraVideoResponse)
| Many (l : list Video.SoraVideoResponse).

Definition listingUnsupported : string :=
  "SoraV2 API does not support listing all videos. Please use specific video IDs to retrieve individual videos.".

(** [videoId] is [searchParams.get('id')]. *)
Definition GET (env : Env) (fetch : Upstream.Call -> Upstream.Outcome)
    (videoId : option string) : list Upstream.Call * HttpResponse Data :=
  if missing (OPENAI_API_KEY env)
  then ([], failure 500 "OpenAI API key is not configured")
  else if missing videoId
  then ([], {| http_status := 200;
               json := {| success := true; data := Some (Many []);
                          error := None;
                          message := Some listingUnsupported |} |})
  else
    let '(calls, videoStatus) :=
      Gen.getVideoStatusFromSoraV2 env fetch (interpolate videoId) in
    (calls,
     match videoStatus with
     | Return v =>
         {| http_status := 200;
            json := {| success := true; data := Some (One v); error := None;
                       message := None |} |}
     | Throw errorMessage => failure 500 errorMessage
     end).

End Query.

(** ** src/app/api/download/route.ts, the download handler ([GET],
       lines 12-46)

    [redirect u] is what [NextResponse.redirect(u)] does with the URL it is
    given: the [Location] of the redirect it builds, or the error it raises
    for a URL it cannot parse. *)

Module DownloadHandler.

Inductive Reply : Type :=
| Redirect (location : string)
| Json (r : HttpResponse Empty_set).

Definition GET (env : Env) (redirect : prim -> result string)
    (fetch : Upstream.Call -> Upstream.Outcome) (videoId : option string)
    : list Upstream.Call * Reply :=
  if missing videoId then ([], Json (failure 400 "Video ID is required"))
  else if missing (OPENAI_API_KEY env)
  then ([], Json (failure 500 "OpenAI API key is not configured"))
  else
    let '(calls, videoUrl) :=
      Download.getVideoDownloadUrlFromSoraV2 env fetch (interpolate videoId) in
    (calls,
     match videoUrl with
     | Return u =>
         match redirect u with
         | Return location => Redirect location
         | Throw errorMessage => Json (failure 500 errorMessage)
         end
     | Throw errorMessage => Json (failure 500 errorMessage)
     end).

End DownloadHandler.

(** ** src/unnamed/part_001: what the ProgressTracker renders
       (lines 61-127) *)

Module TrackerView.

Inductive View : Type :=
| ErrorPanel (e : string)
| Initializing
| Card (p : Progress.GenerationProgress).

(** [if (error) ...; if (!progress) ...; ...] *)
Definition render (s : Tracker.State) : View :=
  if negb (missing (Tracker.error s))
  then ErrorPanel (interpolate (Tracker.error s))
  else
    match Tracker.progress s with
    | None => Initializing
    | Some p => Card p
    end.

End TrackerView.

(** ** src/README.md, lines 214-350: the VideoGenerator component

    One instance of the form.  Its [handleSubmit] has no cancellation: a
    request in flight settles on the instance whatever happened to it in
    between.  [onVideoGenerated] returns normally, as the page's handler
    does. *)

Module Generator.

Inductive Settled : Type :=
| Fulfilled (response : ApiResponse Video.SoraVideoResponse)
| Failed (err : option string).

Inductive Effect : Type :=
| GenerateVideo (request : SoraVideoRequest)
| OnVideoGenerated (videoId : prim).

Record State : Type := {
  prompt : string;
  aspectRatio : string;
  isGenerating : bool;
  error : option string;
  inFlight : nat;
  log : list Effect
}.

(** The two orientation buttons. *)
Inductive Orientation : Type := Landscape | Portrait.

Definition ratioOf (o : Orientation) : string :=
  match o with
  | Landscape => "16:9"
  | Portrait => "9:16"
  end.

Inductive Event : Type :=
| Type_ (text : string)
| Pick (o : Orientation)
| Submit
| Settle (r : Settled).

Definition initial : State :=
  {| prompt := ""; aspectRatio := "16:9"; isGenerating := false;
     error := None; inFlight := 0; log := [] |}.

(** [!prompt.trim()] *)
Definition blankPrompt (s : State) : bool := String.eqb (trim (prompt s)) "".

(** The [disabled] of the submit button (line 332). *)
Definition submitDisabled (s : State) : bool := isGenerating s || blankPrompt s.

(** [{ prompt: prompt.trim(), aspectRatio }]; the fields of
    [SoraVideoRequest] in the order prompt, duration, resolution, style,
    aspectRatio. *)
Definition request (s : State) : SoraVideoRequest :=
  Build_SoraVideoRequest (JStr (trim (prompt s))) JUndefined JUndefined
                         JUndefined (JStr (aspectRatio s)).

(** [handleSubmit] up to its [await]. *)
Definition handleSubmit (s : State) : State :=
  if blankPrompt s then
    {| prompt := prompt s; aspectRatio := aspectRatio s;
       isGenerating := isGenerating s; error := Some "Please enter a prompt";
       inFlight := inFlight s; log := log s |}
  else
    {| prompt := prompt s; aspectRatio := aspectRatio s;
       isGenerating := true; error := None;
       inFlight := S (inFlight s);
       log := GenerateVideo (request s) :: log s |}.

(** [handleSubmit] from its [await] on; [n] requests stay in flight. *)
Definition resume (n : nat) (r : Settled) (s : State) : State :=
  match r with
  | Fulfilled response =>
      match success response, data response with
      | true, Some d =>
          {| prompt := ""; aspectRatio := aspectRatio s;
             isGenerating := false; error := error s; inFlight := n;
             log := OnVideoGenerated (Video.id d) :: log s |}
      | _, _ =>
          {| prompt := prompt s; aspectRatio := aspectRatio s;
             isGenerating := false;
             error := Some (if missing (Api.error response)
                            then "Failed to generate video"
                            else interpolate (Api.error response));
             inFlight := n; log := log s |}
      end
  | Failed err =>
      {| prompt := prompt s; aspectRatio := aspectRatio s;
         isGenerating := false;
         error := Some match err with
                       | Some m => m
                       | None => "An unexpected error occurred"
                       end;
         inFlight := n; log := log s |}
  end.

(** One step of the form.  The text area and the orientation buttons are
    disabled while [isGenerating]; the form is submitted through its
    button. *)
Definition step (s : State) (e : Event) : option State :=
  match e with
  | Type_ text =>
      if isGenerating s then None
      else Some {| prompt := text; aspectRatio := aspectRatio s;
                   isGenerating := isGenerating s; error := error s;
                   inFlight := inFlight s; log := log s |}
  | Pick o =>
      if isGenerating s then None
      else Some {| prompt := prompt s; aspectRatio := ratioOf o;
                   isGenerating := isGenerating s; error := error s;
                   inFlight := inFlight s; log := log s |}
  | Submit => if submitDisabled s then None else Some (handleSubmit s)
  | Settle r =>
      match inFlight s with
      | S n => Some (resume n r s)
      | O => None
      end
  end.

Fixpoint run (s : State) (es : list Event) : option State :=
  match es with
  | [] => Some s
  | e :: es' =>
      match step s e with
      | Some s' => run s' es'
      | None => None
      end
  end.

End Generator.

(** ** src/unnamed/part_000: the Home page *)

Module Page.

Inductive NavItem : Type := playground | video | courses | profiles | tools.

Record State : Type := {
  activeNav : NavItem;
  currentVideoId : prim;
  showProgress : bool;
  galleryRefresh : nat
}.

Definition initial : State :=
  {| activeNav := playground; currentVideoId := JNull;
     showProgress := false; galleryRefresh := 0 |}.

Definition handleVideoGenerated (videoId : prim) (s : State) : State :=
  {| activeNav := activeNav s; currentVideoId := videoId;
     showProgress := true; galleryRefresh := galleryRefresh s |}.

Definition handleGenerationComplete (s : State) : State :=
  {| activeNav := activeNav s; currentVideoId := JNull;
     showProgress := false; galleryRefresh := S (galleryRefresh s) |}.

Definition setActiveNav (item : NavItem) (s : State) : State :=
  {| activeNav := item; currentVideoId := currentVideoId s;
     showProgress := showProgress s; galleryRefresh := galleryRefresh s |}.

(** What the video tab shows above the gallery (lines 80-87). *)
Inductive Slot : Type :=
| Form
| TrackerFor (videoId : prim)
| Blank.

Definition slot (s : State) : Slot :=
  if negb (showProgress s) then Form
  else if truthy_prim (currentVideoId s) then TrackerFor (currentVideoId s)
  else Blank.

(** The content of [main] (lines 36-94). *)
Inductive Main : Type :=
| ChatPlayground
| VideoStudio (top : Slot) (refreshTrigger : nat)
| Nothing.

Definition render (s : State) : Main :=
  match activeNav s with
  | playground => ChatPlayground
  | video => VideoStudio (slot s) (galleryRefresh s)
  | _ => Nothing
  end.

(** What the children and the sidebar call. *)
Inductive Event : Type :=
| Nav (item : NavItem)
| VideoGenerated (videoId : prim)
| GenerationComplete.

Definition step (s : State) (e : Event) : State :=
  match e with
  | Nav item => setActiveNav item s
  | VideoGenerated videoId => handleVideoGenerated videoId s
  | GenerationComplete => handleGenerationComplete s
  end.

Definition run (s : State) (es : list Event) : State := fold_left step es s.

End Page.

(** * Properties

    The vocabulary of the specification and the inputs the statements are
    tried on come first, the lemmas after. *)

(** The internal lifecycle tokens. *)
Definition lifecycle (v : value) : bool :=
  match v with
  | Prim (JStr s) =>
      String.eqb s "pending" || String.eqb s "processing"
      || String.eqb s "completed" || String.eqb s "failed"
  | _ => false
  end.

(** The mapping table of the specification (section 4.1), read row by
    row. *)
Definition statusTable (token : string) : string :=
  if String.eqb token "queued" then "pending"
  else if String.eqb token "in_progress" then "processing"
  else if String.eqb token "processing" then "processing"
  else if String.eqb token "succeeded" then "completed"
  else if String.eqb token "completed" then "completed"
  else if String.eqb token "failed" then "failed"
  else if String.eqb token "cancelled" then "failed"
  else "pending".

(** [delivers fetch response]: the upstream resolves every call to
    [response]. *)
Definition delivers (fetch : Upstream.Call → Upstream.Outcome)
    (response : Upstream.Response) : Prop :=
  ∀ call, fetch call = Upstream.Responded response.

(** [carries response data first]: the response is [ok] and its body is
    the object [data], whose [data?.[0]] is [first]. *)
Definition carries (response : Upstream.Response)
    (data : Upstream.Payload) (first : option Upstream.Payload) : Prop :=
  Upstream.ok response = true
  ∧ Upstream.body response = Upstream.Object data first.

(** The object of an upstream call that succeeds: the call resolves, the
    response is [ok] and its body is a JSON object.  [None] for a call that
    is rejected, a status that is not [ok], and a body that is not JSON or
    is [null]. *)
Definition okObject (outcome : Upstream.Outcome) : option Upstream.Payload :=
  match outcome with
  | Upstream.Responded response =>
      if Upstream.ok response then
        match Upstream.body response with
        | Upstream.Object data _ => Some data
        | _ => None
        end
      else None
  | Upstream.Rejected _ => None
  end.

(** The upstream does not know the id: the call resolves to a 404. *)
Definition unknownUpstream (outcome : Upstream.Outcome) : bool :=
  match outcome with
  | Upstream.Responded response => Upstream.code response =? 404
  | Upstream.Rejected _ => false
  end.

(** The upstream tokens the table of section 4.1 names. *)
Definition recognised : list string :=
  [ "queued"; "in_progress"; "processing"; "succeeded"; "completed";
    "failed"; "cancelled" ].


(** The companion mapping of section 4.1, token to percentage. *)
Definition progressTable (token : string) : Z :=
  if String.eqb token "queued" then 0
  else if String.eqb token "in_progress" then 50
  else if String.eqb token "processing" then 50
  else if String.eqb token "succeeded" then 100
  else if String.eqb token "completed" then 100
  else if String.eqb token "failed" then 0
  else 0.

(** The size rule of section 4.2 in the specification's words: the fixed
    table by aspect ratio and resolution, then the table by resolution
    alone, then the default. *)
Definition byResolution (x y z : string) (resolution : string)
    : option string :=
  if String.eqb resolution "720p" then Some x
  else if String.eqb resolution "1080p" then Some y
  else if String.eqb resolution "4k" then Some z
  else None.

Definition sizeTable (aspectRatio resolution : string) : option string :=
  if String.eqb aspectRatio "16:9"
  then byResolution "1280x720" "1920x1080" "3840x2160" resolution
  else if String.eqb aspectRatio "9:16"
  then byResolution "720x1280" "1080x1920" "2160x3840" resolution
  else if String.eqb aspectRatio "1:1"
  then byResolution "720x720" "1080x1080" "2160x2160" resolution
  else None.

Definition sizeRule (aspectRatio resolution : string) : string :=
  match sizeTable aspectRatio resolution with
  | Some s => s
  | None =>
      match byResolution "1280x720" "1920x1080" "3840x2160" resolution with
      | Some s => s
      | None => "1920x1080"
      end
  end.

(** Case analysis on a key against a literal of a table. *)
Ltac key_case s lit :=
  destruct (decide (s = lit)) as [->|?];
  [ try (vm_compute; reflexivity)
  | try rewrite (proj2 (String.eqb_neq s lit)) by assumption ].

(** ** Inputs the statements are tried on *)

Module Sample.

Definition env : Env :=
  {| OPENAI_API_KEY := Some "sk-test";
     SORA_V2_API_KEY := Some "sora-test";
     SORA_V2_API_ENDPOINT := None;
     clock := λ _, "2025-01-01T00:00:00.000Z";
     builtinProp := λ _ _, Return (Prim JUndefined) |}.

(** An upstream object with the given [id], [status], [progress] and
    [url], every other field absent. *)
Definition payload (id status progress url : prim) : Upstream.Payload :=
  {| Upstream.id := id; Upstream.status := status;
     Upstream.prompt := JUndefined; Upstream.url := url;
     Upstream.video_url := JUndefined; Upstream.download_url := JUndefined;
     Upstream.thumbnail_url := JUndefined; Upstream.duration := JUndefined;
     Upstream.resolution := JUndefined; Upstream.style := JUndefined;
     Upstream.aspect_ratio := JUndefined; Upstream.created_at := JUndefined;
     Upstream.updated_at := JUndefined; Upstream.error := JUndefined;
     Upstream.error_message := JUndefined; Upstream.message := JUndefined;
     Upstream.progress := progress; Upstream.current_step := JUndefined;
     Upstream.estimated_time_remaining := JUndefined |}.

(** An upstream that answers every call alike. *)
Definition replies (code : Z) (statusText : string) (body : Upstream.Body)
    : Upstream.Call → Upstream.Outcome :=
  λ _, Upstream.Responded
         {| Upstream.code := code; Upstream.statusText := statusText;
            Upstream.body := body |}.

Definition sends (data : Upstream.Payload) : Upstream.Call → Upstream.Outcome :=
  replies 200 "OK" (Upstream.Object data None).

Definition notFound : Upstream.Call → Upstream.Outcome :=
  replies 404 "Not Found" (Upstream.Object Upstream.empty None).

(** A progress record as the client receives it, and its envelope. *)
Definition progressOf (status : string) (percent : Z)
    : Progress.GenerationProgress :=
  {| Progress.id := JStr "v1"; Progress.progress := num percent;
     Progress.status := str status; Progress.currentStep := JStr status;
     Progress.estimatedTimeRemaining := JUndefined |}.

Definition envelope (p : Progress.GenerationProgress)
    : ApiResponse Progress.GenerationProgress :=
  {| success := true; data := Some p; error := None; message := None |}.

(** A request with the given prompt, resolution and aspect ratio. *)
Definition request (prompt resolution aspectRatio : prim) : SoraVideoRequest :=
  {| prompt := prompt; duration := JUndefined; resolution := resolution;
     style := JUndefined; aspectRatio := aspectRatio |}.

End Sample.

(** A string of blanks, tabs and line breaks only. *)
Fixpoint blank (s : string) : bool :=
  match s with
  | String a s' => ws1 a && blank s'
  | EmptyString => true
  end.


(** [cancelled i s]: activation [i] exists and its flag is set. *)
Definition cancelled (i : nat) (s : Tracker.State) : Prop :=
  ∃ a, Tracker.activations s !! i = Some a ∧ Tracker.isCancelled a = true.

(** The invariant of the component: the log names only activations that
    exist, and an activation whose flag is not set has not called
    [onComplete]. *)
Definition tracker_inv (s : Tracker.State) : Prop :=
  (∀ j e, (j, e) ∈ Tracker.log s → (j < length (Tracker.activations s))%nat)
  ∧ (∀ i a, Tracker.activations s !! i = Some a →
            Tracker.isCancelled a = false → Tracker.completions i s = 0%nat).

(** ** Vocabulary for the handlers, the form and the page *)

(** An envelope as the handlers build it: 200 with data and no error, or
    400 or 500 with an error and no data. *)
Definition envelope_ok {D : Type} (r : HttpResponse D) : Prop :=
  (http_status r = 200 ∧ success (json r) = true ∧ is_Some (data (json r))
   ∧ error (json r) = None)
  ∨ ((http_status r = 400 ∨ http_status r = 500)
     ∧ success (json r) = false ∧ data (json r) = None
     ∧ is_Some (error (json r))).

(** The first truthy of three values, the last when none is. *)
Definition firstTruthy (a b c : prim) : prim := orPrim (orPrim a b) c.

(** [trimStart] has nothing to remove from [s]. *)
Definition leads (s : string) : bool :=
  match s with
  | String a s1 =>
      ws1 a
      || match s1 with
         | String b s2 =>
             ws2 a b
             || match s2 with
                | String c _ => ws3 a b c
                | EmptyString => false
                end
         | EmptyString => false
         end
  | EmptyString => false
  end.

Definition leadsRev (s : string) : bool :=
  match s with
  | String a s1 =>
      ws1 a
      || match s1 with
         | String b s2 =>
             ws2 b a
             || match s2 with
                | String c _ => ws3 c b a
                | EmptyString => false
                end
         | EmptyString => false
         end
  | EmptyString => false
  end.

(** The component's invariant on its activations: one that is not
    cancelled, or whose interval is set, is the one in place. *)
Definition live (a : Tracker.Activation) : Prop :=
  Tracker.isCancelled a = false ∨ Tracker.interval a = true.

Definition single_activation (s : Tracker.State) : Prop :=
  (∀ i, Tracker.current s = Some i →
        (i < length (Tracker.activations s))%nat)
  ∧ (∀ i a, Tracker.activations s !! i = Some a → live a →
            Tracker.current s = Some i).

(** No activation is live: what a cleanup leaves. *)
Definition quiet (s : Tracker.State) : Prop :=
  Tracker.current s = None
  ∧ ∀ i a, Tracker.activations s !! i = Some a → ¬ live a.

(** The ids the activations were started for, in order. *)
Definition ids (s : Tracker.State) : list string :=
  Tracker.videoId <$> Tracker.activations s.

(** No activation was started for the empty id, and every fetch in the
    log was issued for the id of its activation. *)
Definition fetches_named (s : Tracker.State) : Prop :=
  (∀ vid, vid ∈ ids s → vid ≠ "")
  ∧ (∀ i vid, (i, Tracker.GetProgress vid) ∈ Tracker.log s →
              ids s !! i = Some vid).

(** The requests and the callbacks in the log of the form. *)
Definition isRequest (e : Generator.Effect) : bool :=
  match e with Generator.GenerateVideo _ => true | _ => false end.

Definition isCallback (e : Generator.Effect) : bool :=
  match e with Generator.OnVideoGenerated _ => true | _ => false end.

Definition requests (s : Generator.State) : nat :=
  length (List.filter isRequest (Generator.log s)).

Definition callbacks (s : Generator.State) : nat :=
  length (List.filter isCallback (Generator.log s)).

(** The invariant of the form: [isGenerating] exactly while its one
    request is in flight, and no more callbacks than settled requests. *)
Definition generator_inv (s : Generator.State) : Prop :=
  (Generator.inFlight s ≤ 1)%nat
  ∧ (Generator.isGenerating s = true ↔ Generator.inFlight s = 1%nat)
  ∧ (callbacks s + Generator.inFlight s ≤ requests s)%nat
  ∧ (Generator.aspectRatio s = "16:9" ∨ Generator.aspectRatio s = "9:16").

(** A request as the form builds it. *)
Definition form_request (r : SoraVideoRequest) : Prop :=
  ∃ p, prompt r = JStr p ∧ p ≠ "" ∧ trim p = p
       ∧ duration r = JUndefined ∧ resolution r = JUndefined
       ∧ style r = JUndefined
       ∧ (aspectRatio r = JStr "16:9" ∨ aspectRatio r = JStr "9:16").

(** The completions among the events of the page. *)
Definition isCompletion (e : Page.Event) : bool :=
  match e with Page.GenerationComplete => true | _ => false end.

Definition isNav (e : Page.Event) : bool :=
  match e with Page.Nav _ => true | _ => false end.

Module Fixture.

(** A [NextResponse.redirect] that accepts the URLs that start with
    [https://] and leaves them as they are. *)
Definition redirect (u : prim) : result string :=
  if String.prefix "https://" (toStr u) then Return (toStr u)
  else Throw "URL is malformed".

(** An upstream object in the internal vocabulary, with a percentage and
    a step. *)
Definition rendering : Upstream.Payload :=
  {| Upstream.id := JStr "v1"; Upstream.status := JStr "processing";
     Upstream.prompt := JUndefined; Upstream.url := JUndefined;
     Upstream.video_url := JUndefined; Upstream.download_url := JUndefined;
     Upstream.thumbnail_url := JUndefined; Upstream.duration := JUndefined;
     Upstream.resolution := JUndefined; Upstream.style := JUndefined;
     Upstream.aspect_ratio := JUndefined; Upstream.created_at := JUndefined;
     Upstream.updated_at := JUndefined; Upstream.error := JUndefined;
     Upstream.error_message := JUndefined; Upstream.message := JUndefined;
     Upstream.progress := JNum 42; Upstream.current_step := JStr "rendering";
     Upstream.estimated_time_remaining := JNum 30 |}.

End Fixture.

(** A body that passes the validation of the submit handler. *)
Definition accepted (body : SoraVideoRequest) : Prop :=
  ∃ p, prompt body = JStr p ∧ trim p ≠ "".

(** The text of the error for an upstream answer that is not [ok]. *)
Definition reported (response : Upstream.Response) (d : Upstream.Payload)
    : string :=
  "Sora API error: " +:+ pretty (Upstream.code response) +:+ " - "
  +:+ toStr (firstTruthy (Upstream.error_message d) (Upstream.message d)
                         (JStr (Upstream.statusText response))).

(** The object an error body is read as: itself, or the empty object when
    the body is not JSON. *)
Definition errorData (response : Upstream.Response) (d : Upstream.Payload)
    : Prop :=
  (∃ first, Upstream.body response = Upstream.Object d first)
  ∨ ((∃ msg, Upstream.body response = Upstream.Unparsable msg)
     ∧ d = Upstream.empty).

(** ** Lookups in the object literals *)

Lemma eqb_ne (s t : string) : s ≠ t → String.eqb s t = false.
Proof. intros H. by apply String.eqb_neq. Qed.

Lemma getProp_own (o : gmap string value) (k : string) (v : value) :
  o !! k = Some v → getProp o k = v.
Proof. intros H. unfold getProp. by rewrite H. Qed.

Lemma getProp_absent (o : gmap string value) (k : string) :
  o !! k = None → inherited k = false → getProp o k = JUndefined.
Proof. intros H1 H2. unfold getProp. by rewrite H1, H2. Qed.


Lemma statusTable_lifecycle (token : string) :
  lifecycle (str (statusTable token)) = true.
Proof.
  unfold statusTable.
  repeat match goal with
         | |- context [if ?b then _ else _] => destruct b
         end; reflexivity.
Qed.

Lemma statusMap_lookup (s : string) :
  inherited s = false →
  getProp Gen.statusMap s =
    if String.eqb s "queued" then str "pending"
    else if String.eqb s "in_progress" then str "processing"
    else if String.eqb s "processing" then str "processing"
    else if String.eqb s "succeeded" then str "completed"
    else if String.eqb s "completed" then str "completed"
    else if String.eqb s "failed" then str "failed"
    else if String.eqb s "cancelled" then str "failed"
    else JUndefined.
Proof.
  intros Hs.
  key_case s "queued". key_case s "in_progress". key_case s "processing".
  key_case s "succeeded". key_case s "completed". key_case s "failed".
  key_case s "cancelled".
  apply getProp_absent; [|done].
  unfold Gen.statusMap. rewrite !lookup_insert_ne by done.
  by rewrite lookup_singleton_ne.
Qed.

(** Off the inherited names, [mapSoraStatus] is the table. *)
Lemma mapSoraStatus_table (p : prim) :
  inherited (toStr p) = false →
  Gen.mapSoraStatus p = str (statusTable (toStr p)).
Proof.
  intros Hs. unfold Gen.mapSoraStatus.
  rewrite (statusMap_lookup _ Hs). unfold statusTable.
  repeat match goal with
         | |- context [if ?b then _ else _] => destruct b
         end; reflexivity.
Qed.

(** The two copies of the normaliser are one function. *)
Lemma mapSoraStatus_copies (p : prim) :
  ProgressOpenAI.mapSoraStatus p = Gen.mapSoraStatus p.
Proof. reflexivity. Qed.

(** ** What the operations return *)

Lemma throwUpstream_throws {A : Type} (r : Upstream.Response) :
  ∃ m, @Gen.throwUpstream A r = Throw m.
Proof. unfold Gen.throwUpstream. destruct (Gen.upstreamError r); eauto. Qed.

Section Delivered.

Context (env : Env) (fetch : Upstream.Call → Upstream.Outcome).
Context (response : Upstream.Response).
Context (data : Upstream.Payload) (first : option Upstream.Payload).
Hypothesis Hfetch : delivers fetch response.
Hypothesis Hbody : carries response data first.



Lemma ProgressOpenAI_ok (videoId : string) :
  (ProgressOpenAI.getProgressFromSoraV2 env fetch videoId).2
  = Return (ProgressOpenAI.transform data).
Proof.
  destruct Hbody as [Hok Hb].
  unfold ProgressOpenAI.getProgressFromSoraV2. cbn [snd].
  by rewrite Hfetch, Hok, Hb.
Qed.

Lemma ProgressSoraV2_ok (videoId : string) :
  (ProgressSoraV2.getProgressFromSoraV2 env fetch videoId).2
  = Return (ProgressSoraV2.transform data).
Proof.
  destruct Hbody as [Hok Hb].
  unfold ProgressSoraV2.getProgressFromSoraV2. cbn [snd].
  by rewrite Hfetch, Hok, Hb.
Qed.

End Delivered.

Lemma sends_delivers (data : Upstream.Payload) :
  delivers (Sample.sends data)
           {| Upstream.code := 200; Upstream.statusText := "OK";
              Upstream.body := Upstream.Object data None |}.
Proof. intros call. reflexivity. Qed.

Lemma sends_carries (data : Upstream.Payload) :
  carries {| Upstream.code := 200; Upstream.statusText := "OK";
             Upstream.body := Upstream.Object data None |} data None.
Proof. split; reflexivity. Qed.

(** ** The status of the returned value (C1, C2) *)






(** C2 at the failing input.  The status string [constructor] is not in
    the table, yet both copies of [mapSoraStatus] return the built-in found
    on the prototype chain of [statusMap], not [pending] and not a
    lifecycle token. *)
Theorem C2_mapSoraStatus_inherited_name :
  Gen.mapSoraStatus (JStr "constructor") = Builtin "constructor"
  ∧ ProgressOpenAI.mapSoraStatus (JStr "constructor") = Builtin "constructor"
  ∧ ("constructor" ∉ recognised)
  ∧ statusTable "constructor" = "pending"
  ∧ lifecycle (Gen.mapSoraStatus (JStr "constructor")) = false.
Proof.
  repeat split; try reflexivity.
  apply (bool_decide_unpack _). by vm_compute.
Qed.

(** ** The size sent upstream (C7) *)

Lemma row_lookup (x y z : string) (r : string) :
  inherited r = false →
  getProp {[ "720p" := str x; "1080p" := str y; "4k" := str z ]} r
  = match byResolution x y z r with
    | Some s => str s
    | None => JUndefined
    end.
Proof.
  intros Hr. unfold byResolution.
  destruct (decide (r = "720p")) as [->|?].
  { erewrite getProp_own; [done|]. by rewrite lookup_insert_eq. }
  destruct (decide (r = "1080p")) as [->|?].
  { erewrite getProp_own; [done|].
    rewrite lookup_insert_ne by done. by rewrite lookup_insert_eq. }
  destruct (decide (r = "4k")) as [->|?].
  { erewrite getProp_own; [done|].
    rewrite !lookup_insert_ne by done. by rewrite lookup_singleton_eq. }
  rewrite !eqb_ne by done.
  apply getProp_absent; [|done].
  rewrite !lookup_insert_ne by done. by rewrite lookup_singleton_ne.
Qed.

Lemma aspectSize_lookup (env : Env) (a r : string) :
  inherited a = false → inherited r = false →
  Gen.aspectSize env a r
  = Return match sizeTable a r with
           | Some s => str s
           | None => Prim JUndefined
           end.
Proof.
  intros Ha Hr. unfold Gen.aspectSize, Gen.aspectRatioSizeMap, sizeTable.
  destruct (decide (a = "16:9")) as [->|?].
  { rewrite lookup_insert_eq. by rewrite row_lookup. }
  destruct (decide (a = "9:16")) as [->|?].
  { rewrite lookup_insert_ne by done. rewrite lookup_insert_eq.
    by rewrite row_lookup. }
  destruct (decide (a = "1:1")) as [->|?].
  { rewrite !lookup_insert_ne by done. rewrite lookup_singleton_eq.
    by rewrite row_lookup. }
  rewrite !eqb_ne by done.
  rewrite !lookup_insert_ne by done. rewrite lookup_singleton_ne by done.
  by rewrite Ha.
Qed.

Lemma byResolution_nonempty (x y z r s : string) :
  x ≠ "" → y ≠ "" → z ≠ "" → byResolution x y z r = Some s → s ≠ "".
Proof.
  unfold byResolution. intros Hx Hy Hz H.
  repeat match type of H with
         | (if ?b then _ else _) = _ => destruct b
         end; congruence.
Qed.

Lemma or_str (s : string) (v : value) : s ≠ "" → or (str s) v = str s.
Proof. intros H. unfold or. cbn. by rewrite eqb_ne. Qed.

Lemma or_undefined (v : value) : or JUndefined v = v.
Proof. reflexivity. Qed.

Lemma requestSize_rule (env : Env) (request : SoraVideoRequest) :
  inherited (toStr (orPrim (aspectRatio request) (JStr "16:9"))) = false →
  inherited (toStr (orPrim (resolution request) (JStr "1080p"))) = false →
  Gen.requestSize env request
  = Return (str (sizeRule
                   (toStr (orPrim (aspectRatio request) (JStr "16:9")))
                   (toStr (orPrim (resolution request) (JStr "1080p"))))).
Proof.
  intros Ha Hr. unfold Gen.requestSize, sizeRule.
  rewrite (aspectSize_lookup env _ _ Ha Hr).
  unfold Gen.sizeMap. rewrite (row_lookup _ _ _ _ Hr). f_equal.
  destruct (sizeTable _ _) as [s|] eqn:Hs.
  - assert (s ≠ "") as Hne.
    { unfold sizeTable in Hs.
      repeat match type of Hs with
             | (if ?b then _ else _) = _ => destruct b
             end; try discriminate;
        by eapply byResolution_nonempty in Hs. }
    by rewrite !or_str.
  - rewrite or_undefined.
    destruct (byResolution _ _ _ _) as [s|] eqn:Hs'; [|reflexivity].
    apply or_str. by eapply byResolution_nonempty in Hs'.
Qed.

(** C7, as the code has it.  An absent or empty [aspectRatio] is taken as
    16:9 and an absent or empty [resolution] as 1080p; then, for a pair
    neither of whose members names a property inherited from
    [Object.prototype], the size sent upstream follows the two-level
    fallback: the table by aspect ratio and resolution, the table by
    resolution alone for an unknown aspect ratio, and 1920x1080 for a
    resolution in neither table.  The three pairs the specification lists
    give 720x1280, 1920x1080 and 1920x1080. *)
Theorem C7_size_two_level_fallback
    (env : Env) (fetch : Upstream.Call → Upstream.Outcome)
    (request : SoraVideoRequest) :
  (inherited (toStr (orPrim (aspectRatio request) (JStr "16:9"))) = false →
   inherited (toStr (orPrim (resolution request) (JStr "1080p"))) = false →
   ∃ call body,
     (Gen.callSoraV2API env fetch request).1 = [call]
     ∧ Upstream.content call = Some body
     ∧ Upstream.size body
       = str (sizeRule (toStr (orPrim (aspectRatio request) (JStr "16:9")))
                       (toStr (orPrim (resolution request) (JStr "1080p")))))
  ∧ Gen.requestSize env
      (Sample.request (prompt request) (JStr "720p") (JStr "9:16"))
    = Return (str "720x1280")
  ∧ Gen.requestSize env
      (Sample.request (prompt request) (JStr "1080p") (JStr "unknown"))
    = Return (str "1920x1080")
  ∧ Gen.requestSize env
      (Sample.request (prompt request) (JStr "unknown") (JStr "16:9"))
    = Return (str "1920x1080").
Proof.
  split; [|repeat split; by rewrite requestSize_rule].
  intros Ha Hr. unfold Gen.callSoraV2API.
  rewrite (requestSize_rule env request Ha Hr).
  eexists _, _. cbn [fst Upstream.content].
  split; [reflexivity|]. split; reflexivity.
Qed.

Lemma C7_size_two_level_fallback_witness :
  ∃ call body,
    (Gen.callSoraV2API Sample.env (Sample.sends Upstream.empty)
       (Sample.request (JStr "a cat") (JStr "4k") (JStr "1:1"))).1 = [call]
    ∧ Upstream.content call = Some body
    ∧ Upstream.size body = str "2160x2160".
Proof.
  apply (proj1 (C7_size_two_level_fallback Sample.env
                  (Sample.sends Upstream.empty)
                  (Sample.request (JStr "a cat") (JStr "4k") (JStr "1:1"))));
    reflexivity.
Defined.

(** C7 as stated fails for an empty resolution: it is in neither table,
    yet the size is not the default but the 1080p entry of the row. *)
Lemma C7_counterexample :
  Gen.requestSize Sample.env
    (Sample.request (JStr "a cat") (JStr "") (JStr "9:16"))
  = Return (str "1080x1920")
  ∧ sizeRule "9:16" "" = "1920x1080".
Proof. split; reflexivity. Qed.

(** ** The progress percentage (C8, C10) *)

Lemma statusToProgress_lookup (s : string) :
  inherited s = false →
  or (getProp ProgressOpenAI.statusToProgress s) (num 0)
  = num (progressTable s).
Proof.
  intros Hs. unfold progressTable.
  key_case s "queued". key_case s "in_progress". key_case s "processing".
  key_case s "succeeded". key_case s "completed". key_case s "failed".
  rewrite getProp_absent; [done| |done].
  unfold ProgressOpenAI.statusToProgress.
  rewrite !lookup_insert_ne by done. by rewrite lookup_singleton_ne.
Qed.

Lemma or_falsy (a : prim) (b c : value) :
  truthy_prim a = false → or (or a b) c = or b c.
Proof.
  intros H. unfold or at 2. cbn [truthy]. by rewrite H.
Qed.

(** Off the inherited names, a response without a percentage gets the
    percentage of the companion table. *)
Lemma transform_progress_table (data : Upstream.Payload) :
  truthy_prim (Upstream.progress data) = false →
  inherited (toStr (Upstream.status data)) = false →
  Progress.progress (ProgressOpenAI.transform data)
  = num (progressTable (toStr (Upstream.status data))).
Proof.
  intros Hp Hs. cbn [ProgressOpenAI.transform Progress.progress].
  rewrite or_falsy by done. by apply statusToProgress_lookup.
Qed.

(** C8 at the failing input.  The upstream sends no percentage and the
    status [constructor], a token outside the table: the returned progress
    is the built-in found on the prototype chain of [statusToProgress], not
    0. *)
Theorem C8_progress_inherited_name :
  (ProgressOpenAI.getProgressFromSoraV2 Sample.env
     (Sample.sends (Sample.payload (JStr "v1") (JStr "constructor")
                                   JUndefined JUndefined)) "v1").2
  = Return {| Progress.id := JStr "v1";
              Progress.progress := Builtin "constructor";
              Progress.status := Builtin "constructor";
              Progress.currentStep := JStr "constructor";
              Progress.estimatedTimeRemaining := JUndefined |}
  ∧ progressTable "constructor" = 0.
Proof. split; reflexivity. Qed.

(** C10.  In both progress routes a falsy upstream [progress] (absent, or
    exactly 0) falls through to the next alternative: in the OpenAI route to
    the percentage looked up from the status, and to 0 after it, so that
    progress 0 with status [in_progress] gives 50; in the SoraV2 route to
    0. *)
Theorem C10_falsy_progress_falls_through
    (env : Env) (fetch : Upstream.Call → Upstream.Outcome)
    (response : Upstream.Response)
    (data : Upstream.Payload) (first : option Upstream.Payload)
    (videoId : string) :
  delivers fetch response →
  carries response data first →
  truthy_prim (Upstream.progress data) = false →
  (∃ p, (ProgressOpenAI.getProgressFromSoraV2 env fetch videoId).2 = Return p
        ∧ Progress.progress p
          = or (getProp ProgressOpenAI.statusToProgress
                        (toStr (Upstream.status data)))
               (num 0)
        ∧ (Upstream.status data = JStr "in_progress" →
           Progress.progress p = num 50))
  ∧ (∃ p, (ProgressSoraV2.getProgressFromSoraV2 env fetch videoId).2 = Return p
          ∧ Progress.progress p = num 0).
Proof.
  intros Hf Hb Hfalsy. split.
  - eexists. split; [by eapply ProgressOpenAI_ok|].
    cbn [ProgressOpenAI.transform Progress.progress].
    rewrite or_falsy by done. split; [done|]. by intros ->.
  - eexists. split; [by eapply ProgressSoraV2_ok|].
    cbn [ProgressSoraV2.transform Progress.progress].
    unfold or. cbn [truthy]. by rewrite Hfalsy.
Qed.

Lemma C10_falsy_progress_falls_through_witness :
  (∃ p, (ProgressOpenAI.getProgressFromSoraV2 Sample.env
           (Sample.sends (Sample.payload (JStr "v1") (JStr "in_progress")
                                         (JNum 0) JUndefined)) "v1").2
        = Return p
        ∧ Progress.progress p
          = or (getProp ProgressOpenAI.statusToProgress "in_progress") (num 0)
        ∧ (JStr "in_progress" = JStr "in_progress" →
           Progress.progress p = num 50))
  ∧ (∃ p, (ProgressSoraV2.getProgressFromSoraV2 Sample.env
             (Sample.sends (Sample.payload (JStr "v1") (JStr "in_progress")
                                           (JNum 0) JUndefined)) "v1").2
          = Return p
          ∧ Progress.progress p = num 0).
Proof.
  apply (C10_falsy_progress_falls_through Sample.env _ _
           (Sample.payload (JStr "v1") (JStr "in_progress") (JNum 0) JUndefined)
           None "v1" (sends_delivers _) (sends_carries _)).
  reflexivity.
Defined.

(** ** The progress endpoint (C3) *)

Lemma not_ok_404 (r : Upstream.Response) :
  Upstream.code r = 404 → Upstream.ok r = false.
Proof. intros H. unfold Upstream.ok. by rewrite H. Qed.

Lemma ProgressOpenAI_404 env fetch response videoId :
  delivers fetch response → Upstream.code response = 404 →
  (ProgressOpenAI.getProgressFromSoraV2 env fetch videoId).2
  = Throw "Video not found".
Proof.
  intros Hf Hc. unfold ProgressOpenAI.getProgressFromSoraV2. cbn [snd].
  by rewrite Hf, (not_ok_404 _ Hc), Hc.
Qed.

Lemma ProgressSoraV2_404 env fetch response videoId :
  delivers fetch response → Upstream.code response = 404 →
  (ProgressSoraV2.getProgressFromSoraV2 env fetch videoId).2
  = Throw "Video not found".
Proof.
  intros Hf Hc. unfold ProgressSoraV2.getProgressFromSoraV2. cbn [snd].
  by rewrite Hf, (not_ok_404 _ Hc), Hc.
Qed.

Lemma ProgressOpenAI_GET_codes env fetch videoId :
  let r := (ProgressOpenAI.GET env fetch videoId).2 in
  (http_status r = 400 ∧ missing videoId = true)
  ∨ (http_status r = 500 ∧ missing videoId = false ∧ success (json r) = false)
  ∨ (http_status r = 200 ∧ missing videoId = false
     ∧ success (json r) = true ∧ is_Some (data (json r))).
Proof.
  unfold ProgressOpenAI.GET.
  destruct (missing videoId); [by left|].
  destruct (missing (OPENAI_API_KEY env)); [by right; left|].
  destruct (ProgressOpenAI.getProgressFromSoraV2 _ _ _) as [calls [p|m]];
    cbn; [right; right|right; left]; eauto.
Qed.

Lemma ProgressSoraV2_GET_codes env fetch videoId :
  let r := (ProgressSoraV2.GET env fetch videoId).2 in
  (http_status r = 400 ∧ missing videoId = true)
  ∨ (http_status r = 500 ∧ missing videoId = false ∧ success (json r) = false)
  ∨ (http_status r = 200 ∧ missing videoId = false
     ∧ success (json r) = true ∧ is_Some (data (json r))).
Proof.
  unfold ProgressSoraV2.GET.
  destruct (missing videoId); [by left|].
  destruct (missing (SORA_V2_API_KEY env)); [by right; left|].
  destruct (ProgressSoraV2.getProgressFromSoraV2 _ _ _) as [calls [p|m]];
    cbn; [right; right|right; left]; eauto.
Qed.

(** C3, as the code has it.  The progress endpoint, in both integrations,
    answers 400 without calling upstream when the id is omitted (or empty);
    500 when the id is given and the upstream answers 404; 200 with the
    GenerationProgress when the key is configured, the id given and the
    upstream answers [ok] with an object; and its status is never other
    than 400 (only for a missing id), 200 (only with a progress record) or
    500.  And 500 otherwise: with an id and no key the answer is 500 and
    nobody is called; with an id and a key the handler makes one call, and
    answers 200 with the record built from the object exactly when that
    call resolves to an [ok] response whose body is an object, and 500 with
    no data in every other case (a rejected call, a status that is not
    [ok], a body that is not JSON or is [null]); for a 404 the error text
    is [Video not found] in the OpenAI integration, and in the SoraV2
    integration every failure of the call reads [Internal server error]. *)
Theorem C3_progress_endpoint_status
    (env : Env) (fetch : Upstream.Call → Upstream.Outcome)
    (videoId : option string) :
  (missing videoId = true →
   ProgressOpenAI.GET env fetch videoId = ([], failure 400 "Video ID is required")
   ∧ ProgressSoraV2.GET env fetch videoId
     = ([], failure 400 "Video ID is required"))
  ∧ (missing videoId = false →
     ∀ response, delivers fetch response → Upstream.code response = 404 →
       http_status (ProgressOpenAI.GET env fetch videoId).2 = 500
       ∧ http_status (ProgressSoraV2.GET env fetch videoId).2 = 500)
  ∧ (missing videoId = false →
     ∀ response data first,
       delivers fetch response → carries response data first →
       (missing (OPENAI_API_KEY env) = false →
        (ProgressOpenAI.GET env fetch videoId).2
        = {| http_status := 200;
             json := {| success := true;
                        data := Some (ProgressOpenAI.transform data);
                        error := None; message := None |} |})
       ∧ (missing (SORA_V2_API_KEY env) = false →
          (ProgressSoraV2.GET env fetch videoId).2
          = {| http_status := 200;
               json := {| success := true;
                          data := Some (ProgressSoraV2.transform data);
                          error := None; message := None |} |}))
  ∧ (∀ r, r = (ProgressOpenAI.GET env fetch videoId).2
          ∨ r = (ProgressSoraV2.GET env fetch videoId).2 →
       (http_status r = 400 ∧ missing videoId = true)
       ∨ (http_status r = 500 ∧ missing videoId = false
          ∧ success (json r) = false)
       ∨ (http_status r = 200 ∧ missing videoId = false
          ∧ success (json r) = true ∧ is_Some (data (json r))))
  ∧ (missing videoId = false →
     (missing (OPENAI_API_KEY env) = true →
      ProgressOpenAI.GET env fetch videoId
      = ([], failure 500 "OpenAI API key is not configured"))
     ∧ (missing (SORA_V2_API_KEY env) = true →
        ProgressSoraV2.GET env fetch videoId
        = ([], failure 500 "SoraV2 API key is not configured")))
  ∧ (missing videoId = false → missing (OPENAI_API_KEY env) = false →
     ∃ call,
       (ProgressOpenAI.GET env fetch videoId).1 = [call]
       ∧ match okObject (fetch call) with
         | Some data =>
             (ProgressOpenAI.GET env fetch videoId).2
             = {| http_status := 200;
                  json := {| success := true;
                             data := Some (ProgressOpenAI.transform data);
                             error := None; message := None |} |}
         | None =>
             http_status (ProgressOpenAI.GET env fetch videoId).2 = 500
             ∧ success (json (ProgressOpenAI.GET env fetch videoId).2) = false
             ∧ data (json (ProgressOpenAI.GET env fetch videoId).2) = None
             ∧ (unknownUpstream (fetch call) = true →
                (ProgressOpenAI.GET env fetch videoId).2
                = failure 500 "Video not found")
         end)
  ∧ (missing videoId = false → missing (SORA_V2_API_KEY env) = false →
     ∃ call,
       (ProgressSoraV2.GET env fetch videoId).1 = [call]
       ∧ match okObject (fetch call) with
         | Some data =>
             (ProgressSoraV2.GET env fetch videoId).2
             = {| http_status := 200;
                  json := {| success := true;
                             data := Some (ProgressSoraV2.transform data);
                             error := None; message := None |} |}
         | None =>
             (ProgressSoraV2.GET env fetch videoId).2
             = failure 500 "Internal server error"
         end).
Proof.
  split; [|split; [|split; [|split; [|split; [|split]]]]].
  - intros Hid. unfold ProgressOpenAI.GET, ProgressSoraV2.GET. by rewrite Hid.
  - intros Hid response Hf Hc.
    unfold ProgressOpenAI.GET, ProgressSoraV2.GET. rewrite Hid. split.
    + destruct (missing (OPENAI_API_KEY env)); [done|].
      pose proof (ProgressOpenAI_404 env fetch response (interpolate videoId)
                    Hf Hc) as H.
      destruct (ProgressOpenAI.getProgressFromSoraV2 _ _ _) as [calls p].
      cbn in H. by rewrite H.
    + destruct (missing (SORA_V2_API_KEY env)); [done|].
      pose proof (ProgressSoraV2_404 env fetch response (interpolate videoId)
                    Hf Hc) as H.
      destruct (ProgressSoraV2.getProgressFromSoraV2 _ _ _) as [calls p].
      cbn in H. by rewrite H.
  - intros Hid response data first Hf Hb.
    unfold ProgressOpenAI.GET, ProgressSoraV2.GET. rewrite Hid. split.
    + intros ->.
      pose proof (ProgressOpenAI_ok env fetch response data first Hf Hb
                    (interpolate videoId)) as H.
      destruct (ProgressOpenAI.getProgressFromSoraV2 _ _ _) as [calls p].
      cbn in H. by rewrite H.
    + intros ->.
      pose proof (ProgressSoraV2_ok env fetch response data first Hf Hb
                    (interpolate videoId)) as H.
      destruct (ProgressSoraV2.getProgressFromSoraV2 _ _ _) as [calls p].
      cbn in H. by rewrite H.
  - intros r [->| ->].
    + apply ProgressOpenAI_GET_codes.
    + apply ProgressSoraV2_GET_codes.
  - intros Hid. unfold ProgressOpenAI.GET, ProgressSoraV2.GET. rewrite Hid.
    split; by intros ->.
  - intros Hid Hk. unfold ProgressOpenAI.GET. rewrite Hid, Hk.
    unfold ProgressOpenAI.getProgressFromSoraV2. cbn [fst snd].
    eexists. split; [reflexivity|].
    destruct (fetch _) as [msg|response]; cbn [okObject unknownUpstream];
      [by repeat split|].
    destruct (Upstream.ok response) eqn:Hok; cbn [negb].
    + destruct (Upstream.body response);
        cbn [failure http_status json success data];
        try done; repeat split; try done.
      all: intros H404%Z.eqb_eq; unfold Upstream.ok in Hok; rewrite H404 in Hok;
        discriminate Hok.
    + destruct (Upstream.code response =? 404); [by repeat split|].
      unfold Gen.throwUpstream. destruct (Gen.upstreamError response);
        by repeat split.
  - intros Hid Hk. unfold ProgressSoraV2.GET. rewrite Hid, Hk.
    unfold ProgressSoraV2.getProgressFromSoraV2. cbn [fst snd].
    eexists. split; [reflexivity|].
    destruct (fetch _) as [msg|response]; cbn [okObject]; [done|].
    destruct (Upstream.ok response); cbn [negb].
    + by destruct (Upstream.body response).
    + destruct (Upstream.code response =? 404); [done|].
      by destruct (Upstream.body response).
Qed.

Lemma notFound_delivers :
  delivers Sample.notFound
           {| Upstream.code := 404; Upstream.statusText := "Not Found";
              Upstream.body := Upstream.Object Upstream.empty None |}.
Proof. intros call. reflexivity. Qed.

Lemma C3_progress_endpoint_status_witness :
  http_status (ProgressOpenAI.GET Sample.env Sample.notFound (Some "v1")).2 = 500
  ∧ http_status (ProgressSoraV2.GET Sample.env Sample.notFound (Some "v1")).2
    = 500.
Proof.
  apply (proj1 (proj2
           (C3_progress_endpoint_status Sample.env Sample.notFound (Some "v1")))
           eq_refl _ notFound_delivers eq_refl).
Defined.

(** C3 as stated fails: for an id the upstream does not know, both
    progress routes answer 500, not 404. *)
Lemma C3_counterexample :
  (ProgressSoraV2.GET Sample.env Sample.notFound (Some "v1")).2
  = failure 500 "Internal server error"
  ∧ (ProgressOpenAI.GET Sample.env Sample.notFound (Some "v1")).2
    = failure 500 "Video not found"
  ∧ http_status (ProgressSoraV2.GET Sample.env Sample.notFound (Some "v1")).2
    ≠ 404
  ∧ http_status (ProgressOpenAI.GET Sample.env Sample.notFound (Some "v1")).2
    ≠ 404.
Proof. repeat split; done. Qed.

(** ** The download URL (C6) *)














(** ** Validation of the prompt (C9) *)

Lemma trimStart_blank (s : string) : blank s = true → trimStart s = "".
Proof.
  induction s as [|a s IH]; [done|]. cbn [blank trimStart].
  intros [Ha Hs]%andb_true_iff. rewrite Ha. by apply IH.
Qed.

(** A prompt of blanks, tabs and line breaks only is empty once trimmed. *)
Lemma trim_blank (s : string) : blank s = true → trim s = "".
Proof. intros H. unfold trim. by rewrite trimStart_blank. Qed.

(** A prompt with text passes the validation: one call goes upstream and
    the answer is 200. *)
Lemma POST_accepts_prompt :
  length (Gen.POST Sample.env
            (Sample.sends (Sample.payload (JStr "v1") (JStr "queued")
                                          JUndefined JUndefined))
            (Fields (Sample.request (JStr " a cat ") JUndefined JUndefined))).1
  = 1%nat
  ∧ http_status
      (Gen.POST Sample.env
         (Sample.sends (Sample.payload (JStr "v1") (JStr "queued")
                                       JUndefined JUndefined))
         (Fields (Sample.request (JStr " a cat ") JUndefined JUndefined))).2
    = 200.
Proof. split; reflexivity. Qed.

(** C9, as the code has it.  For every submit request whose body is a
    JSON object and whose prompt is absent, empty, or only white space
    (empty once trimmed), whatever the configuration and the upstream, the
    handler answers the validation failure with status 400 and calls the
    upstream not at all.  A request whose body is not JSON (an empty body
    among them) or is [null] has no prompt either; the handler answers it
    500 with the message of the error that reading it raises, and calls the
    upstream not at all. *)
Theorem C9_blank_prompt_rejected
    (env : Env) (fetch : Upstream.Call → Upstream.Outcome) :
  (∀ body : SoraVideoRequest,
     prompt body = JUndefined
     ∨ prompt body = JStr ""
     ∨ (∃ s, prompt body = JStr s ∧ trim s = "") →
     Gen.POST env fetch (Fields body)
     = ([], failure 400 "Prompt is required and must be a non-empty string")
     ∧ (Gen.POST env fetch (Fields body)).1 = []
     ∧ http_status (Gen.POST env fetch (Fields body)).2 = 400
     ∧ success (json (Gen.POST env fetch (Fields body)).2) = false)
  ∧ (∀ msg,
       Gen.POST env fetch (BadBody msg) = ([], failure 500 msg)
       ∧ (Gen.POST env fetch (BadBody msg)).1 = []
       ∧ http_status (Gen.POST env fetch (BadBody msg)).2 = 500
       ∧ success (json (Gen.POST env fetch (BadBody msg)).2) = false).
Proof.
  split; [|done]. intros body H.
  assert (Gen.POST env fetch (Fields body)
          = ([], failure 400 "Prompt is required and must be a non-empty string"))
    as Hpost.
  { unfold Gen.POST.
    destruct H as [-> | [-> | (s & -> & Hs)]]; [done|done|].
    cbn [isString asString negb orb]. rewrite Hs. cbn.
    by rewrite orb_true_r. }
  by rewrite Hpost.
Qed.

Lemma C9_blank_prompt_rejected_witness :
  Gen.POST Sample.env (Sample.sends Upstream.empty)
    (Fields (Sample.request
               (JStr (String " " (String (ascii_of_nat 9)
                        (String (ascii_of_nat 10) "  "))))
               JUndefined JUndefined))
  = ([], failure 400 "Prompt is required and must be a non-empty string").
Proof.
  apply (proj1 (proj1 (C9_blank_prompt_rejected Sample.env
                  (Sample.sends Upstream.empty))
                  (Sample.request
                     (JStr (String " " (String (ascii_of_nat 9)
                              (String (ascii_of_nat 10) "  "))))
                     JUndefined JUndefined)
                  (or_intror (or_intror
                     (ex_intro _ _ (conj eq_refl eq_refl)))))).
Defined.

(** C9 as stated fails: a submit request with an empty body has no prompt,
    and the handler answers it 500, not 400. *)
Lemma C9_counterexample :
  Gen.POST Sample.env (Sample.sends Upstream.empty)
    (BadBody "Unexpected end of JSON input")
  = ([], failure 500 "Unexpected end of JSON input")
  ∧ http_status
      (Gen.POST Sample.env (Sample.sends Upstream.empty)
         (BadBody "Unexpected end of JSON input")).2
    ≠ 400.
Proof. split; done. Qed.

(** ** The polling component (C4, C5) *)

Section TrackerFacts.

Import Tracker.

Implicit Types (s : State) (e : Event) (i j : nat) (a : Activation).

Lemma effectsOf_other i j (x : Effect) (l : list (nat * Effect)) :
  j ≠ i → effectsOf i ((j, x) :: l) = effectsOf i l.
Proof. intros H. cbn. by rewrite (proj2 (Nat.eqb_neq j i)). Qed.

Lemma effectsOf_same i (x : Effect) (l : list (nat * Effect)) :
  effectsOf i ((i, x) :: l) = x :: effectsOf i l.
Proof. cbn. by rewrite Nat.eqb_refl. Qed.

Lemma effectsOf_absent i (l : list (nat * Effect)) :
  (∀ x, (i, x) ∉ l) → effectsOf i l = [].
Proof.
  induction l as [|[j x] l IH]; [done|]. intros H.
  destruct (decide (j = i)) as [->|Hne].
  - exfalso. apply (H x). by left.
  - rewrite effectsOf_other by done. apply IH. intros y Hy.
    apply (H y). by right.
Qed.

Lemma lookup_cleanup_other i j s :
  i ≠ j → activations (cleanup i s) !! j = activations s !! j.
Proof.
  intros H. unfold cleanup. destruct (activations s !! i); [|done].
  cbn. by rewrite list_lookup_insert_ne.
Qed.

Lemma cleanup_cancelled i s a :
  activations s !! i = Some a → cancelled i (cleanup i s).
Proof.
  intros H. unfold cancelled, cleanup. rewrite H. cbn.
  eexists. split.
  - apply list_lookup_insert_eq. by eapply lookup_lt_Some.
  - reflexivity.
Qed.

Lemma cleanup_keeps_cancelled i j s :
  cancelled i s → cancelled i (cleanup j s).
Proof.
  intros (a & Ha & Hc). destruct (decide (j = i)) as [->|Hne].
  - by eapply cleanup_cancelled.
  - exists a. by rewrite lookup_cleanup_other.
Qed.

Lemma activate_keeps_cancelled i vid s :
  cancelled i s → cancelled i (activate vid s).
Proof.
  intros (a & Ha & Hc). unfold activate.
  destruct (String.eqb vid ""); [by exists a|].
  exists a. cbn. split; [|done]. rewrite lookup_app_l; [done|].
  by eapply lookup_lt_Some.
Qed.

Lemma cleanup_log i s : log (cleanup i s) = log s.
Proof. unfold cleanup. by destruct (activations s !! i). Qed.

Lemma length_cleanup i s :
  length (activations (cleanup i s)) = length (activations s).
Proof.
  unfold cleanup. destruct (activations s !! i); [|done].
  cbn. by rewrite length_insert.
Qed.

Lemma step_Render s vid s' :
  step s (Render vid) = Some s' →
  s' = activate vid match current s with
                    | Some i => cleanup i s
                    | None => s
                    end.
Proof. cbn. destruct (phase s); congruence. Qed.

Lemma step_Unmount s s' :
  step s Unmount = Some s' →
  s' = tornDown match current s with
                | Some i => cleanup i s
                | None => s
                end.
Proof. cbn. destruct (phase s); congruence. Qed.

Lemma activate_log_other i vid s :
  (i < length (activations s))%nat →
  effectsOf i (log (activate vid s)) = effectsOf i (log s).
Proof.
  intros Hlt. unfold activate. destruct (String.eqb vid ""); [done|].
  cbn [log]. apply effectsOf_other. lia.
Qed.

(** Once set, the flag of an activation stays set. *)
Lemma step_keeps_cancelled i s e s' :
  cancelled i s → step s e = Some s' → cancelled i s'.
Proof.
  intros Hc Hstep. destruct e as [vid| |j|j r].
  - apply step_Render in Hstep as ->. apply activate_keeps_cancelled.
    destruct (current s); [by apply cleanup_keeps_cancelled|done].
  - apply step_Unmount in Hstep as ->.
    change (cancelled i match current s with
                        | Some k => cleanup k s
                        | None => s
                        end).
    destruct (current s); [by apply cleanup_keeps_cancelled|done].
  - cbn in Hstep. destruct (activations s !! j) as [b|] eqn:Hb; [|done].
    destruct (interval b); [|done]. injection Hstep as <-.
    unfold fetchProgress_call. destruct (isCancelled b) eqn:Hflag; [done|].
    destruct Hc as (a & Ha & Hca). exists a. cbn. split; [|done].
    rewrite list_lookup_insert_ne; [done|]. intros ->. congruence.
  - cbn in Hstep. destruct (activations s !! j) as [b|] eqn:Hb; [|done].
    destruct (inFlight b) as [|n] eqn:Hn; [done|]. injection Hstep as <-.
    destruct Hc as (a & Ha & Hca).
    destruct (decide (j = i)) as [->|Hne].
    + assert (b = a) as -> by congruence.
      assert (i < length (activations s))%nat as Hlt
        by by eapply lookup_lt_Some.
      unfold fetchProgress_resume. destruct r; rewrite Hca; cbn;
        (eexists; split; [by apply list_lookup_insert_eq|by cbn]).
    + exists a. split; [|done].
      unfold fetchProgress_resume, setFlag.
      destruct r as [response|err]; repeat case_match; cbn;
        by rewrite list_lookup_insert_ne.
Qed.

Lemma run_keeps_cancelled i es s s' :
  cancelled i s → run s es = Some s' → cancelled i s'.
Proof.
  revert s. induction es as [|e es IH]; intros s Hc Hrun; cbn in Hrun.
  - by injection Hrun as <-.
  - destruct (step s e) as [s1|] eqn:Hstep; [|done].
    eapply IH; [|done]. by eapply step_keeps_cancelled.
Qed.

(** A settled call of a cancelled activation changes nothing that can be
    observed. *)
Lemma settle_cancelled_silent i r s s' :
  cancelled i s → step s (Settle i r) = Some s' →
  progress s' = progress s ∧ error s' = error s ∧ log s' = log s.
Proof.
  intros (a & Ha & Hc) Hstep. cbn in Hstep. rewrite Ha in Hstep.
  destruct (inFlight a) as [|n]; [done|]. injection Hstep as <-.
  unfold fetchProgress_resume. by destruct r; rewrite Hc.
Qed.

(** No step adds an effect of a cancelled activation to the log. *)
Lemma step_cancelled_effects i s e s' :
  cancelled i s → step s e = Some s' →
  effectsOf i (log s') = effectsOf i (log s).
Proof.
  intros (a & Ha & Hc) Hstep.
  assert (i < length (activations s))%nat as Hlt by by eapply lookup_lt_Some.
  destruct e as [vid| |j|j r].
  - apply step_Render in Hstep as ->. rewrite activate_log_other.
    + destruct (current s); by rewrite ?cleanup_log.
    + destruct (current s); by rewrite ?length_cleanup.
  - apply step_Unmount in Hstep as ->. cbn [tornDown log].
    destruct (current s); by rewrite ?cleanup_log.
  - cbn in Hstep. destruct (activations s !! j) as [b|] eqn:Hb; [|done].
    destruct (interval b); [|done]. injection Hstep as <-.
    unfold fetchProgress_call. destruct (isCancelled b) eqn:Hflag; [done|].
    cbn [log]. apply effectsOf_other. intros ->. congruence.
  - destruct (decide (j = i)) as [->|Hne].
    + by destruct (settle_cancelled_silent i r s s'
                     (ex_intro _ a (conj Ha Hc)) Hstep) as (_ & _ & ->).
    + cbn in Hstep. destruct (activations s !! j) as [b|] eqn:Hb; [|done].
      destruct (inFlight b) as [|n]; [done|]. injection Hstep as <-.
      unfold fetchProgress_resume.
      destruct r as [response|err]; repeat case_match; cbn [log];
        by rewrite ?effectsOf_other.
Qed.

Lemma run_cancelled_effects i es s s' :
  cancelled i s → run s es = Some s' →
  effectsOf i (log s') = effectsOf i (log s).
Proof.
  revert s. induction es as [|e es IH]; intros s Hc Hrun; cbn in Hrun.
  - by injection Hrun as <-.
  - destruct (step s e) as [s1|] eqn:Hstep; [|done].
    rewrite (IH s1); [by eapply step_cancelled_effects| |done].
    by eapply step_keeps_cancelled.
Qed.

(** C4.  Let the activation in place be deactivated, by the teardown of
    the component or by a run of the effect for another id.  Then, whatever
    happens afterwards, no effect of that activation is added to the log (no
    call of [setProgress], [setError], [onComplete], and no further fetch),
    and a call of it that settles, with any result, leaves the progress
    state, the error state and the log as they were. *)
Theorem C4_deactivated_fetch_is_silent
    (s1 s2 s3 : State) (i : nat) (a : Activation) (e : Event)
    (es : list Event) :
  current s1 = Some i →
  activations s1 !! i = Some a →
  e = Unmount ∨ (∃ vid, e = Render vid) →
  step s1 e = Some s2 →
  run s2 es = Some s3 →
  effectsOf i (log s3) = effectsOf i (log s1)
  ∧ ∀ r s4, step s3 (Settle i r) = Some s4 →
      progress s4 = progress s3 ∧ error s4 = error s3 ∧ log s4 = log s3.
Proof.
  intros Hcur Ha He Hstep Hrun.
  assert (cancelled i s2 ∧ effectsOf i (log s2) = effectsOf i (log s1))
    as [Hc Hlog].
  { destruct He as [->|[vid ->]].
    - apply step_Unmount in Hstep as ->. rewrite Hcur. split.
      + change (cancelled i (cleanup i s1)). by eapply cleanup_cancelled.
      + cbn [tornDown log]. by rewrite cleanup_log.
    - apply step_Render in Hstep as ->. rewrite Hcur. split.
      + apply activate_keeps_cancelled. by eapply cleanup_cancelled.
      + rewrite activate_log_other; [by rewrite cleanup_log|].
        rewrite length_cleanup. by eapply lookup_lt_Some. }
  split.
  - rewrite <- Hlog. by eapply run_cancelled_effects.
  - intros r s4 Hs4. eapply settle_cancelled_silent; [|done].
    by eapply run_keeps_cancelled.
Qed.

Lemma C4_deactivated_fetch_is_silent_witness :
  effectsOf 0
    (log (default fresh
            (run (tornDown (cleanup 0 (activate "v1" fresh)))
                 [Settle 0 (Failed (Some "network down"))])))
  = effectsOf 0 (log (activate "v1" fresh))
  ∧ ∀ r s4,
      step (default fresh
              (run (tornDown (cleanup 0 (activate "v1" fresh)))
                   [Settle 0 (Failed (Some "network down"))]))
           (Settle 0 r) = Some s4 →
      progress s4 = None ∧ error s4 = None
      ∧ log s4 = [(0%nat, GetProgress "v1")].
Proof.
  apply (C4_deactivated_fetch_is_silent
           (activate "v1" fresh)
           (tornDown (cleanup 0 (activate "v1" fresh)))
           (default fresh
              (run (tornDown (cleanup 0 (activate "v1" fresh)))
                   [Settle 0 (Failed (Some "network down"))]))
           0
           {| videoId := "v1"; isCancelled := false; inFlight := 1;
              interval := true |}
           Unmount
           [Settle 0 (Failed (Some "network down"))]
           eq_refl eq_refl (or_introl eq_refl) eq_refl eq_refl).
Defined.

(** *** The invariant *)

Lemma completions_cons i j (x : Effect) s s' :
  log s' = (j, x) :: log s → j ≠ i ∨ isOnComplete x = false →
  completions i s' = completions i s.
Proof.
  intros Hlog H. unfold completions. rewrite Hlog. cbn [effectsOf].
  destruct (Nat.eqb_spec j i) as [->|Hne]; [|done].
  destruct H as [H|H]; [done|]. cbn. by rewrite H.
Qed.

Lemma completions_log i s s' : log s' = log s → completions i s' = completions i s.
Proof. intros H. unfold completions. by rewrite H. Qed.

Lemma inv_fresh : tracker_inv fresh.
Proof.
  split.
  - intros j e H. by apply elem_of_nil in H.
  - intros i a H. by destruct i.
Qed.

Lemma inv_cleanup j s : tracker_inv s → tracker_inv (cleanup j s).
Proof.
  intros [Hlog Hflag]. split.
  - intros k e. rewrite cleanup_log, length_cleanup. apply Hlog.
  - intros i a Ha Hc. rewrite (completions_log i s (cleanup j s))
      by apply cleanup_log.
    destruct (decide (j = i)) as [->|Hne].
    + unfold cleanup in Ha. destruct (activations s !! i) as [b|] eqn:Hb.
      * cbn in Ha. rewrite list_lookup_insert_eq in Ha
          by by eapply lookup_lt_Some.
        injection Ha as <-. discriminate Hc.
      * by rewrite Hb in Ha.
    + rewrite lookup_cleanup_other in Ha by done. by eapply Hflag.
Qed.

Lemma inv_activate vid s : tracker_inv s → tracker_inv (activate vid s).
Proof.
  intros [Hlog Hflag]. unfold activate.
  destruct (String.eqb vid ""); [by split|]. split.
  - intros k e. cbn [log activations]. rewrite length_app. cbn [length].
    intros [[= -> ->]|H]%elem_of_cons; [lia|]. apply Hlog in H. lia.
  - intros i a. cbn [activations]. intros Ha Hc.
    erewrite (completions_cons i _ _ s); [|reflexivity|by right].
    destruct (decide (i < length (activations s))%nat) as [Hlt|Hge].
    + rewrite lookup_app_l in Ha by done. by eapply Hflag.
    + unfold completions. rewrite effectsOf_absent; [done|].
      intros x Hx. apply Hlog in Hx. lia.
Qed.

Lemma inv_fetchProgress_call j b s :
  activations s !! j = Some b → tracker_inv s →
  tracker_inv (fetchProgress_call j b s).
Proof.
  intros Hb [Hlog Hflag]. unfold fetchProgress_call.
  destruct (isCancelled b) eqn:Hcb; [done|].
  assert (j < length (activations s))%nat as Hlt by by eapply lookup_lt_Some.
  split.
  - intros k e. cbn [log activations]. rewrite length_insert.
    intros [[= -> ->]|H]%elem_of_cons; [done|]. by eapply Hlog.
  - intros i a. cbn [activations]. intros Ha Hc.
    erewrite (completions_cons i _ _ s); [|reflexivity|by right].
    destruct (decide (j = i)) as [->|Hne]; [by eapply Hflag|].
    rewrite list_lookup_insert_ne in Ha by done. by eapply Hflag.
Qed.

Lemma onComplete_count_skip i j (x : Effect) (l : list (nat * Effect)) :
  j ≠ i ∨ isOnComplete x = false →
  length (List.filter isOnComplete (effectsOf i ((j, x) :: l)))
  = length (List.filter isOnComplete (effectsOf i l)).
Proof.
  intros H. cbn [effectsOf].
  destruct (Nat.eqb_spec j i) as [->|Hne]; [|done].
  destruct H as [H|H]; [done|]. cbn. by rewrite H.
Qed.

Lemma inv_fetchProgress_resume j b n r s :
  activations s !! j = Some b → tracker_inv s →
  tracker_inv (fetchProgress_resume j b n r s).
Proof.
  intros Hb [Hlog Hflag].
  assert (j < length (activations s))%nat as Hlt by by eapply lookup_lt_Some.
  unfold fetchProgress_resume.
  destruct r as [response|err]; destruct (isCancelled b) eqn:Hcb;
    repeat case_match;
    (split;
     [ intros k e; cbn [log activations]; unfold setFlag;
       rewrite length_insert; intros Hin;
       repeat (apply elem_of_cons in Hin as [[= -> ->]|Hin]; [done|]);
       by eapply Hlog
     | intros i a; cbn [activations]; unfold setFlag; intros Ha Hc;
       unfold completions; cbn [log];
       destruct (decide (j = i)) as [->|Hne];
       [ rewrite list_lookup_insert_eq in Ha by done;
         injection Ha as <-; cbn in Hc;
         first [ congruence
               | rewrite !onComplete_count_skip by (by right);
                 by eapply Hflag ]
       | rewrite list_lookup_insert_ne in Ha by done;
         rewrite ?onComplete_count_skip by (by left);
         by eapply Hflag ] ]).
Qed.

Lemma step_inv s e s' : tracker_inv s → step s e = Some s' → tracker_inv s'.
Proof.
  intros Hinv Hstep. destruct e as [vid| |j|j r].
  - apply step_Render in Hstep as ->. apply inv_activate.
    destruct (current s); [by apply inv_cleanup|done].
  - apply step_Unmount in Hstep as ->.
    change (tracker_inv match current s with
                        | Some k => cleanup k s
                        | None => s
                        end).
    destruct (current s); [by apply inv_cleanup|done].
  - cbn in Hstep. destruct (activations s !! j) as [b|] eqn:Hb; [|done].
    destruct (interval b); [|done]. injection Hstep as <-.
    by apply inv_fetchProgress_call.
  - cbn in Hstep. destruct (activations s !! j) as [b|] eqn:Hb; [|done].
    destruct (inFlight b) as [|n]; [done|]. injection Hstep as <-.
    by apply inv_fetchProgress_resume.
Qed.

Lemma run_inv es s s' : tracker_inv s → run s es = Some s' → tracker_inv s'.
Proof.
  revert s. induction es as [|e es IH]; intros s Hinv Hrun; cbn in Hrun.
  - by injection Hrun as <-.
  - destruct (step s e) as [s1|] eqn:Hstep; [|done].
    eapply IH; [|done]. by eapply step_inv.
Qed.

Lemma statusIs_failed_not_completed (d : Progress.GenerationProgress) :
  statusIs d "failed" = true → statusIs d "completed" = false.
Proof.
  unfold statusIs. destruct (Progress.status d) as [[| | | |st]|]; try done.
  cbn. intros ->%String.eqb_eq. reflexivity.
Qed.

(** After a step that leaves activation [i] cancelled, its counts of
    completions and fetches are fixed. *)
Lemma cancelled_counts_fixed i s es s' :
  cancelled i s → run s es = Some s' →
  completions i s' = completions i s ∧ fetches i s' = fetches i s.
Proof.
  intros Hc Hrun. unfold completions, fetches.
  by rewrite (run_cancelled_effects i es s s' Hc Hrun).
Qed.

(** C5.  In a run of the component from its mount, let a call of
    activation [i] settle with a successful envelope while the flag of [i]
    is not set, so that the result is observed.  If its status is
    [completed], [onComplete] is called in that step, and in every
    continuation the activation has called it exactly once and issues no
    further fetch.  If its status is [failed], the error state is set in that
    step, and in every continuation the activation issues no further fetch and
    has never called [onComplete]. *)
Theorem C5_terminal_result_stops_polling
    (es1 : list Event) (s1 : State) (i : nat) (a : Activation) (n : nat)
    (response : ApiResponse Progress.GenerationProgress)
    (d : Progress.GenerationProgress) :
  run fresh es1 = Some s1 →
  activations s1 !! i = Some a →
  isCancelled a = false →
  inFlight a = S n →
  success response = true →
  data response = Some d →
  (statusIs d "completed" = true →
   ∃ s2, step s1 (Settle i (Fulfilled response)) = Some s2
     ∧ effectsOf i (log s2)
       = OnComplete :: SetProgress d :: effectsOf i (log s1)
     ∧ ∀ es2 s3, run s2 es2 = Some s3 →
         completions i s3 = 1%nat ∧ fetches i s3 = fetches i s2)
  ∧ (statusIs d "failed" = true →
     ∃ s2, step s1 (Settle i (Fulfilled response)) = Some s2
       ∧ error s2 = Some "Video generation failed"
       ∧ effectsOf i (log s2)
         = SetError "Video generation failed" :: SetProgress d
           :: effectsOf i (log s1)
       ∧ ∀ es2 s3, run s2 es2 = Some s3 →
           completions i s3 = 0%nat ∧ fetches i s3 = fetches i s2).
Proof.
  intros Hrun Ha Hflag Hn Hsucc Hdata.
  pose proof (run_inv es1 fresh s1 inv_fresh Hrun) as [_ Hinv].
  pose proof (Hinv i a Ha Hflag) as Hzero.
  assert (i < length (activations s1))%nat as Hlt by by eapply lookup_lt_Some.
  split; intros Hst.
  - eexists. split.
    { cbn. rewrite Ha, Hn. unfold fetchProgress_resume.
      rewrite Hflag, Hsucc, Hdata, Hst. reflexivity. }
    cbn [log]. rewrite !effectsOf_same. split; [done|].
    intros es2 s3 Hrun2.
    match type of Hrun2 with run ?s2 _ = _ =>
      assert (cancelled i s2) as Hc
    end.
    { eexists. split; [by apply list_lookup_insert_eq|done]. }
    destruct (cancelled_counts_fixed i _ es2 s3 Hc Hrun2) as [-> ->].
    split; [|done].
    unfold completions in *. cbn [log]. rewrite !effectsOf_same. cbn.
    by rewrite Hzero.
  - pose proof (statusIs_failed_not_completed d Hst) as Hnc.
    eexists. split.
    { cbn. rewrite Ha, Hn. unfold fetchProgress_resume.
      rewrite Hflag, Hsucc, Hdata, Hnc, Hst. reflexivity. }
    cbn [log error]. rewrite !effectsOf_same. split; [done|]. split; [done|].
    intros es2 s3 Hrun2.
    match type of Hrun2 with run ?s2 _ = _ =>
      assert (cancelled i s2) as Hc
    end.
    { eexists. split; [by apply list_lookup_insert_eq|done]. }
    destruct (cancelled_counts_fixed i _ es2 s3 Hc Hrun2) as [-> ->].
    split; [|done].
    unfold completions in *. cbn [log]. rewrite !effectsOf_same. cbn.
    by rewrite Hzero.
Qed.

Lemma C5_terminal_result_stops_polling_witness :
  ∃ s2,
    step (activate "v1" fresh)
         (Settle 0 (Fulfilled (Sample.envelope (Sample.progressOf "completed" 100))))
    = Some s2
    ∧ effectsOf 0 (log s2)
      = [OnComplete; SetProgress (Sample.progressOf "completed" 100);
         GetProgress "v1"]
    ∧ ∀ es2 s3, run s2 es2 = Some s3 →
        completions 0 s3 = 1%nat ∧ fetches 0 s3 = fetches 0 s2.
Proof.
  apply (proj1 (C5_terminal_result_stops_polling
                  [Render "v1"] (activate "v1" fresh) 0
                  {| videoId := "v1"; isCancelled := false; inFlight := 1;
                     interval := true |}
                  0 (Sample.envelope (Sample.progressOf "completed" 100))
                  (Sample.progressOf "completed" 100)
                  eq_refl eq_refl eq_refl eq_refl eq_refl eq_refl)
               eq_refl).
Defined.

(** The run of section 8 of the specification: queued, in_progress,
    succeeded; one completion, three fetches, and the tick after the last
    result fetches nothing. *)
Lemma polling_run_of_the_specification :
  ∃ s, run fresh
         [Render "v1";
          Settle 0 (Fulfilled (Sample.envelope (Sample.progressOf "pending" 0)));
          Tick 0;
          Settle 0 (Fulfilled (Sample.envelope (Sample.progressOf "processing" 50)));
          Tick 0;
          Settle 0 (Fulfilled (Sample.envelope (Sample.progressOf "completed" 100)));
          Tick 0] = Some s
       ∧ progress s = Some (Sample.progressOf "completed" 100)
       ∧ error s = None
       ∧ completions 0 s = 1%nat
       ∧ fetches 0 s = 3%nat.
Proof. eexists. repeat split; reflexivity. Qed.

End TrackerFacts.

(** * Further properties of the sources *)

(** ** The handlers and the upstream *)

Lemma callSoraV2API_calls env fetch request call :
  call ∈ (Gen.callSoraV2API env fetch request).1 →
  Upstream.authorization call = "Bearer " +:+ interpolate (OPENAI_API_KEY env).
Proof.
  unfold Gen.callSoraV2API. destruct (Gen.requestSize env request); cbn [fst].
  - intros ->%list_elem_of_singleton. reflexivity.
  - intros H. by apply elem_of_nil in H.
Qed.

Lemma callSoraV2API_calls_length env fetch request :
  (length (Gen.callSoraV2API env fetch request).1 ≤ 1)%nat.
Proof.
  unfold Gen.callSoraV2API. destruct (Gen.requestSize env request); cbn; lia.
Qed.

Lemma missing_false (v : option string) :
  missing v = false → ∃ k, v = Some k ∧ k ≠ "" ∧ interpolate v = k.
Proof.
  destruct v as [k|]; [|done]. cbn. intros H%String.eqb_neq. by exists k.
Qed.

(** X1.  No handler reaches the upstream without a configured key: each
    issues at most one call, and a call that is issued carries the key of
    its integration, which is then not empty, as its bearer token. *)
Theorem handlers_call_only_with_key
    (env : Env) (redirect : prim → result string)
    (fetch : Upstream.Call → Upstream.Outcome)
    (body : RequestBody) (videoId : option string) (call : Upstream.Call) :
  (call ∈ (Gen.POST env fetch body).1
   ∨ call ∈ (Query.GET env fetch videoId).1
   ∨ call ∈ (DownloadHandler.GET env redirect fetch videoId).1
   ∨ call ∈ (ProgressOpenAI.GET env fetch videoId).1 →
   ∃ k, OPENAI_API_KEY env = Some k ∧ k ≠ ""
        ∧ Upstream.authorization call = "Bearer " +:+ k)
  ∧ (call ∈ (ProgressSoraV2.GET env fetch videoId).1 →
     ∃ k, SORA_V2_API_KEY env = Some k ∧ k ≠ ""
          ∧ Upstream.authorization call = "Bearer " +:+ k)
  ∧ (length (Gen.POST env fetch body).1 ≤ 1
     ∧ length (Query.GET env fetch videoId).1 ≤ 1
     ∧ length (DownloadHandler.GET env redirect fetch videoId).1 ≤ 1
     ∧ length (ProgressOpenAI.GET env fetch videoId).1 ≤ 1
     ∧ length (ProgressSoraV2.GET env fetch videoId).1 ≤ 1)%nat.
Proof.
  split; [|split].
  - intros [H|[H|[H|H]]].
    + unfold Gen.POST in H. destruct body as [msg|b]; [by apply elem_of_nil in H|].
      destruct (_ || _); [by apply elem_of_nil in H|].
      destruct (missing (OPENAI_API_KEY env)) eqn:Hk;
        [by apply elem_of_nil in H|].
      destruct (missing_false _ Hk) as (k & Hkey & Hne & Hi). exists k.
      split; [done|]. split; [done|]. rewrite <- Hi.
      apply (callSoraV2API_calls env fetch b).
      by destruct (Gen.callSoraV2API env fetch b).
    + unfold Query.GET in H.
      destruct (missing (OPENAI_API_KEY env)) eqn:Hk;
        [by apply elem_of_nil in H|].
      destruct (missing videoId); [by apply elem_of_nil in H|].
      destruct (missing_false _ Hk) as (k & Hkey & Hne & Hi). exists k.
      split; [done|]. split; [done|]. rewrite <- Hi.
      cbn in H. by apply list_elem_of_singleton in H as ->.
    + unfold DownloadHandler.GET in H.
      destruct (missing videoId); [by apply elem_of_nil in H|].
      destruct (missing (OPENAI_API_KEY env)) eqn:Hk;
        [by apply elem_of_nil in H|].
      destruct (missing_false _ Hk) as (k & Hkey & Hne & Hi). exists k.
      split; [done|]. split; [done|]. rewrite <- Hi.
      cbn in H. by apply list_elem_of_singleton in H as ->.
    + unfold ProgressOpenAI.GET in H.
      destruct (missing videoId); [by apply elem_of_nil in H|].
      destruct (missing (OPENAI_API_KEY env)) eqn:Hk;
        [by apply elem_of_nil in H|].
      destruct (missing_false _ Hk) as (k & Hkey & Hne & Hi). exists k.
      split; [done|]. split; [done|]. rewrite <- Hi.
      cbn in H. by apply list_elem_of_singleton in H as ->.
  - intros H. unfold ProgressSoraV2.GET in H.
    destruct (missing videoId); [by apply elem_of_nil in H|].
    destruct (missing (SORA_V2_API_KEY env)) eqn:Hk;
      [by apply elem_of_nil in H|].
    destruct (missing_false _ Hk) as (k & Hkey & Hne & Hi). exists k.
    split; [done|]. split; [done|]. rewrite <- Hi.
    cbn in H. by apply list_elem_of_singleton in H as ->.
  - repeat split.
    + unfold Gen.POST. destruct body as [msg|b]; [cbn; lia|].
      destruct (_ || _); [cbn; lia|].
      destruct (missing (OPENAI_API_KEY env)); [cbn; lia|].
      pose proof (callSoraV2API_calls_length env fetch b).
      by destruct (Gen.callSoraV2API env fetch b).
    + unfold Query.GET, Gen.getVideoStatusFromSoraV2.
      destruct (missing _); [cbn; lia|]. destruct (missing _); cbn; lia.
    + unfold DownloadHandler.GET, Download.getVideoDownloadUrlFromSoraV2.
      destruct (missing _); [cbn; lia|]. destruct (missing _); cbn; lia.
    + unfold ProgressOpenAI.GET, ProgressOpenAI.getProgressFromSoraV2.
      destruct (missing _); [cbn; lia|]. destruct (missing _); cbn; lia.
    + unfold ProgressSoraV2.GET, ProgressSoraV2.getProgressFromSoraV2.
      destruct (missing _); [cbn; lia|]. destruct (missing _); cbn; lia.
Qed.

Lemma handlers_call_only_with_key_witness :
  ∃ k, OPENAI_API_KEY Sample.env = Some k ∧ k ≠ ""
       ∧ Upstream.authorization
           {| Upstream.input := "https://api.openai.com/v1/videos/generations/v1";
              Upstream.method := "GET";
              Upstream.authorization := "Bearer sk-test";
              Upstream.content := None |}
         = "Bearer " +:+ k.
Proof.
  apply (proj1 (handlers_call_only_with_key Sample.env Fixture.redirect
                  (Sample.sends Upstream.empty) (BadBody "") (Some "v1") _)).
  right. left. vm_compute. constructor.
Defined.

Lemma failure_envelope_ok {D : Type} (code : Z) (err : string) :
  code = 400 ∨ code = 500 → envelope_ok (@failure D code err).
Proof. intros H. right. cbn. eauto. Qed.

(** X2.  Every envelope a handler answers is consistent: status 200 goes
    with [success], data and no error; any other status is 400 or 500 and
    goes with no success, no data and an error text.  The download handler
    never answers a 200 envelope: it redirects or fails. *)
Theorem handlers_answer_consistent_envelopes
    (env : Env) (redirect : prim → result string)
    (fetch : Upstream.Call → Upstream.Outcome)
    (body : RequestBody) (videoId : option string) :
  envelope_ok (Gen.POST env fetch body).2
  ∧ envelope_ok (Query.GET env fetch videoId).2
  ∧ envelope_ok (ProgressOpenAI.GET env fetch videoId).2
  ∧ envelope_ok (ProgressSoraV2.GET env fetch videoId).2
  ∧ (∀ r, (DownloadHandler.GET env redirect fetch videoId).2
          = DownloadHandler.Json r →
       envelope_ok r ∧ http_status r ≠ 200).
Proof.
  repeat split.
  - unfold Gen.POST. destruct body as [msg|b];
      [apply failure_envelope_ok; auto|].
    destruct (_ || _); [apply failure_envelope_ok; auto|].
    destruct (missing _); [apply failure_envelope_ok; auto|].
    destruct (Gen.callSoraV2API env fetch b) as [calls [v|m]]; cbn [snd].
    + left. cbn. eauto.
    + apply failure_envelope_ok; auto.
  - unfold Query.GET.
    destruct (missing _); [apply failure_envelope_ok; auto|].
    destruct (missing _); [left; cbn; eauto|].
    destruct (Gen.getVideoStatusFromSoraV2 _ _ _) as [calls [v|m]]; cbn [snd].
    + left. cbn. eauto.
    + apply failure_envelope_ok; auto.
  - unfold ProgressOpenAI.GET.
    destruct (missing _); [apply failure_envelope_ok; auto|].
    destruct (missing _); [apply failure_envelope_ok; auto|].
    destruct (ProgressOpenAI.getProgressFromSoraV2 _ _ _) as [calls [v|m]];
      cbn [snd].
    + left. cbn. eauto.
    + apply failure_envelope_ok; auto.
  - unfold ProgressSoraV2.GET.
    destruct (missing _); [apply failure_envelope_ok; auto|].
    destruct (missing _); [apply failure_envelope_ok; auto|].
    destruct (ProgressSoraV2.getProgressFromSoraV2 _ _ _) as [calls [v|m]];
      cbn [snd].
    + left. cbn. eauto.
    + apply failure_envelope_ok; auto.
  - revert H. unfold DownloadHandler.GET.
    destruct (missing _);
      [intros [= <-]; apply failure_envelope_ok; auto|].
    destruct (missing _);
      [intros [= <-]; apply failure_envelope_ok; auto|].
    destruct (Download.getVideoDownloadUrlFromSoraV2 _ _ _) as [calls [u|m]];
      cbn [snd]; [destruct (redirect u); [done|]|];
      intros [= <-]; apply failure_envelope_ok; auto.
  - revert H. unfold DownloadHandler.GET.
    destruct (missing _); [by intros [= <-]|].
    destruct (missing _); [by intros [= <-]|].
    destruct (Download.getVideoDownloadUrlFromSoraV2 _ _ _) as [calls [u|m]];
      cbn [snd]; [destruct (redirect u); [done|]|]; by intros [= <-].
Qed.

Lemma handlers_answer_consistent_envelopes_witness :
  envelope_ok
    (failure (D := Empty_set) 400 "Video ID is required")
  ∧ http_status (failure (D := Empty_set) 400 "Video ID is required") ≠ 200.
Proof.
  apply (proj2 (proj2 (proj2 (proj2
           (handlers_answer_consistent_envelopes Sample.env Fixture.redirect
              (Sample.sends Upstream.empty) (BadBody "") None))))).
  reflexivity.
Defined.

(** X3.  The order of the checks.  The query handler looks at the key
    first: without a key it answers 500 whatever the id, and with a key and
    no id it answers 200 with an empty list and an explanation, calling
    nobody.  The progress and download handlers look at the id first:
    without an id they answer 400 whatever the key. *)
Theorem query_checks_key_before_id
    (env : Env) (redirect : prim → result string)
    (fetch : Upstream.Call → Upstream.Outcome) (videoId : option string) :
  (missing (OPENAI_API_KEY env) = true →
   Query.GET env fetch videoId
   = ([], failure 500 "OpenAI API key is not configured"))
  ∧ (missing (OPENAI_API_KEY env) = false → missing videoId = true →
     Query.GET env fetch videoId
     = ([], {| http_status := 200;
               json := {| success := true; data := Some (Query.Many []);
                          error := None;
                          message := Some Query.listingUnsupported |} |})
     ∧ Query.listingUnsupported ≠ "")
  ∧ (missing videoId = true →
     ProgressOpenAI.GET env fetch videoId
     = ([], failure 400 "Video ID is required")
     ∧ ProgressSoraV2.GET env fetch videoId
       = ([], failure 400 "Video ID is required")
     ∧ DownloadHandler.GET env redirect fetch videoId
       = ([], DownloadHandler.Json (failure 400 "Video ID is required"))).
Proof.
  unfold Query.GET, ProgressOpenAI.GET, ProgressSoraV2.GET, DownloadHandler.GET.
  split; [by intros ->|]. split; [by intros -> ->|]. by intros ->.
Qed.

Lemma query_checks_key_before_id_witness :
  Query.GET
    {| OPENAI_API_KEY := None; SORA_V2_API_KEY := None;
       SORA_V2_API_ENDPOINT := None; clock := λ _, "";
       builtinProp := λ _ _, Return (Prim JUndefined) |}
    (Sample.sends Upstream.empty) None
  = ([], failure 500 "OpenAI API key is not configured").
Proof.
  apply (proj1 (query_checks_key_before_id
                  {| OPENAI_API_KEY := None; SORA_V2_API_KEY := None;
                     SORA_V2_API_ENDPOINT := None; clock := λ _, "";
                     builtinProp := λ _ _, Return (Prim JUndefined) |}
                  Fixture.redirect (Sample.sends Upstream.empty) None)).
  reflexivity.
Defined.

Lemma accepted_passes (body : SoraVideoRequest) :
  accepted body →
  negb (truthy_prim (prompt body)) || negb (isString (prompt body))
  || (String.length (trim (asString (prompt body))) =? 0)%nat = false.
Proof.
  intros (p & -> & Hp). cbn [truthy_prim isString asString negb orb].
  assert (String.eqb p "" = false) as ->.
  { apply String.eqb_neq. by intros ->. }
  destruct (trim p); [done|reflexivity].
Qed.

Lemma POST_accepted env fetch body :
  accepted body → missing (OPENAI_API_KEY env) = false →
  Gen.POST env fetch (Fields body)
  = ((Gen.callSoraV2API env fetch body).1,
     match (Gen.callSoraV2API env fetch body).2 with
     | Return v =>
         {| http_status := 200;
            json := {| success := true; data := Some v; error := None;
                       message := Some "Video generation started successfully" |} |}
     | Throw errorMessage => failure 500 errorMessage
     end).
Proof.
  intros Ha Hk. unfold Gen.POST. rewrite (accepted_passes _ Ha), Hk.
  by destruct (Gen.callSoraV2API env fetch body).
Qed.

Lemma throwUpstream_reported {A : Type} response d :
  errorData response d →
  @Gen.throwUpstream A response = Throw (reported response d).
Proof.
  unfold Gen.throwUpstream, Gen.upstreamError, reported, firstTruthy.
  intros [[first ->]|[[msg ->] ->]]; reflexivity.
Qed.

Lemma throwUpstream_null {A : Type} response msg :
  Upstream.body response = Upstream.NullBody msg →
  @Gen.throwUpstream A response = Throw msg.
Proof.
  intros Hb. unfold Gen.throwUpstream, Gen.upstreamError. by rewrite Hb.
Qed.

(** X4.  How an upstream failure is reported.  When the upstream answers
    with a status that is not [ok], its body is an object, not JSON at all,
    or [null].  For an object or a body that is not JSON, the query handler
    answers 500 with the text [Video not found] for a 404, and otherwise
    with a text that names the upstream status and the first of the body's
    [error.message], its [message] and the status text; the submit handler
    has no case for 404 and reports it like any other status.  For a body
    that is [null], reading the error message raises, and both handlers
    answer 500 with the message of that error instead, the query handler
    again after its case for 404. *)
Theorem upstream_failure_is_reported
    (env : Env) (fetch : Upstream.Call → Upstream.Outcome)
    (response : Upstream.Response)
    (videoId : option string) (body : SoraVideoRequest) (size : value) :
  delivers fetch response →
  Upstream.ok response = false →
  missing (OPENAI_API_KEY env) = false →
  (∀ d, errorData response d →
     (missing videoId = false →
      (Query.GET env fetch videoId).2
      = failure 500 (if Upstream.code response =? 404 then "Video not found"
                     else reported response d))
     ∧ (accepted body → Gen.requestSize env body = Return size →
        (Gen.POST env fetch (Fields body)).2
        = failure 500 (reported response d)))
  ∧ (∀ msg, Upstream.body response = Upstream.NullBody msg →
       (missing videoId = false →
        (Query.GET env fetch videoId).2
        = failure 500 (if Upstream.code response =? 404 then "Video not found"
                       else msg))
       ∧ (accepted body → Gen.requestSize env body = Return size →
          (Gen.POST env fetch (Fields body)).2 = failure 500 msg))
  ∧ ((∃ d, errorData response d)
     ∨ (∃ msg, Upstream.body response = Upstream.NullBody msg)).
Proof.
  intros Hf Hok Hk.
  assert (∀ text,
            @Gen.throwUpstream Video.SoraVideoResponse response = Throw text →
            (missing videoId = false →
             (Query.GET env fetch videoId).2
             = failure 500 (if Upstream.code response =? 404
                            then "Video not found" else text))
            ∧ (accepted body → Gen.requestSize env body = Return size →
               (Gen.POST env fetch (Fields body)).2 = failure 500 text))
    as Hboth.
  { intros text Ht. split.
    - intros Hid. unfold Query.GET, Gen.getVideoStatusFromSoraV2.
      rewrite Hk, Hid. cbn [snd]. rewrite Hf, Hok. cbn [negb].
      destruct (Upstream.code response =? 404); [done|]. by rewrite Ht.
    - intros Ha Hs. rewrite (POST_accepted env fetch body Ha Hk). cbn [snd].
      unfold Gen.callSoraV2API. rewrite Hs. cbn [snd].
      rewrite Hf, Hok. cbn [negb]. by rewrite Ht. }
  split; [|split].
  - intros d Hd. apply Hboth. by apply throwUpstream_reported.
  - intros msg Hb. apply Hboth. by apply throwUpstream_null.
  - unfold errorData. destruct (Upstream.body response) as [m|m|d first].
    + left. exists Upstream.empty. right. split; [by exists m|done].
    + right. by exists m.
    + left. exists d. left. by exists first.
Qed.

Lemma upstream_failure_is_reported_witness :
  (Query.GET Sample.env
     (Sample.replies 429 "Too Many Requests" (Upstream.Unparsable "no JSON"))
     (Some "v1")).2
  = failure 500 "Sora API error: 429 - Too Many Requests".
Proof.
  apply (proj1 (proj1 (upstream_failure_is_reported Sample.env
                  (Sample.replies 429 "Too Many Requests"
                                  (Upstream.Unparsable "no JSON"))
                  {| Upstream.code := 429;
                     Upstream.statusText := "Too Many Requests";
                     Upstream.body := Upstream.Unparsable "no JSON" |}
                  (Some "v1")
                  (Sample.request (JStr "a cat") JUndefined JUndefined)
                  (str "1920x1080")
                  (λ _, eq_refl) eq_refl eq_refl)
                  Upstream.empty
                  (or_intror (conj (ex_intro _ "no JSON" eq_refl) eq_refl)))
               eq_refl).
Defined.



(** ** The normaliser and the two progress routes *)

Lemma lifecycle_tokens (s : string) :
  lifecycle (str s) = true →
  s = "pending" ∨ s = "processing" ∨ s = "completed" ∨ s = "failed".
Proof.
  cbn. rewrite !orb_true_iff, !String.eqb_eq. tauto.
Qed.

(** X6.  The lifecycle tokens are fixed points of [mapSoraStatus], so
    normalising twice is normalising once: off the inherited names, the
    result of [mapSoraStatus] is a string that [mapSoraStatus] maps to
    itself. *)
Theorem mapSoraStatus_idempotent (p : prim) :
  inherited (toStr p) = false →
  ∃ s, Gen.mapSoraStatus p = str s
       ∧ Gen.mapSoraStatus (JStr s) = str s
       ∧ ProgressOpenAI.mapSoraStatus (JStr s) = str s.
Proof.
  intros Hp. exists (statusTable (toStr p)).
  split; [by apply mapSoraStatus_table|].
  pose proof (statusTable_lifecycle (toStr p)) as Hl.
  apply lifecycle_tokens in Hl as [->|[->|[->| ->]]]; by split.
Qed.

Lemma mapSoraStatus_idempotent_witness :
  ∃ s, Gen.mapSoraStatus (JStr "succeeded") = str s
       ∧ Gen.mapSoraStatus (JStr s) = str s
       ∧ ProgressOpenAI.mapSoraStatus (JStr s) = str s.
Proof. apply (mapSoraStatus_idempotent (JStr "succeeded")). reflexivity. Defined.

Lemma transform_status_table (data : Upstream.Payload) :
  inherited (toStr (Upstream.status data)) = false →
  Progress.status (ProgressOpenAI.transform data)
  = str (statusTable (toStr (Upstream.status data))).
Proof. intros H. by apply mapSoraStatus_table. Qed.

(** X7.  The derived percentage agrees with the normalised status.  When
    the upstream gives no percentage (a falsy one) and its status names no
    inherited property, the progress route of the OpenAI integration
    returns 100 exactly with status [completed], 50 exactly with
    [processing], and 0 with [pending] and [failed]; so the percentage is
    one of 0, 50 and 100. *)
Theorem derived_progress_matches_status
    (env : Env) (fetch : Upstream.Call → Upstream.Outcome)
    (response : Upstream.Response)
    (data : Upstream.Payload) (first : option Upstream.Payload)
    (videoId : string) :
  delivers fetch response →
  carries response data first →
  truthy_prim (Upstream.progress data) = false →
  inherited (toStr (Upstream.status data)) = false →
  ∃ p, (ProgressOpenAI.getProgressFromSoraV2 env fetch videoId).2 = Return p
       ∧ (Progress.status p = str "completed" ↔ Progress.progress p = num 100)
       ∧ (Progress.status p = str "processing" ↔ Progress.progress p = num 50)
       ∧ (Progress.status p = str "pending" ∨ Progress.status p = str "failed"
          ↔ Progress.progress p = num 0)
       ∧ (Progress.progress p = num 0 ∨ Progress.progress p = num 50
          ∨ Progress.progress p = num 100).
Proof.
  intros Hf Hb Hp Hs. eexists. split; [by eapply ProgressOpenAI_ok|].
  rewrite (transform_progress_table data Hp Hs),
          (transform_status_table data Hs).
  unfold statusTable, progressTable.
  repeat match goal with
         | |- context [String.eqb ?k ?lit] => destruct (String.eqb k lit)
         end;
    (split; [|split; [|split]]);
    first [ split; intros H; first [discriminate H | reflexivity]
          | split; intros H; first [by destruct H | by left | by right]
          | by left | by right; left | by right; right ].
Qed.

Lemma derived_progress_matches_status_witness :
  ∃ p, (ProgressOpenAI.getProgressFromSoraV2 Sample.env
          (Sample.sends (Sample.payload (JStr "v1") (JStr "cancelled")
                                        JUndefined JUndefined)) "v1").2
       = Return p
       ∧ (Progress.status p = str "completed" ↔ Progress.progress p = num 100)
       ∧ (Progress.status p = str "processing" ↔ Progress.progress p = num 50)
       ∧ (Progress.status p = str "pending" ∨ Progress.status p = str "failed"
          ↔ Progress.progress p = num 0)
       ∧ (Progress.progress p = num 0 ∨ Progress.progress p = num 50
          ∨ Progress.progress p = num 100).
Proof.
  apply (derived_progress_matches_status Sample.env _ _
           (Sample.payload (JStr "v1") (JStr "cancelled") JUndefined JUndefined)
           None "v1" (sends_delivers _) (sends_carries _) eq_refl eq_refl).
Defined.

(** X8.  The two progress integrations are interchangeable on an
    upstream that speaks the internal vocabulary: when the upstream status
    is a lifecycle token and the upstream gives a truthy percentage and a
    truthy current step, both routes return the same record, holding the
    upstream's status, percentage and step unchanged. *)
Theorem progress_routes_agree
    (env : Env) (fetch : Upstream.Call → Upstream.Outcome)
    (response : Upstream.Response)
    (data : Upstream.Payload) (first : option Upstream.Payload)
    (videoId : string) :
  delivers fetch response →
  carries response data first →
  lifecycle (Prim (Upstream.status data)) = true →
  truthy_prim (Upstream.progress data) = true →
  truthy_prim (Upstream.current_step data) = true →
  (ProgressOpenAI.getProgressFromSoraV2 env fetch videoId).2
  = (ProgressSoraV2.getProgressFromSoraV2 env fetch videoId).2
  ∧ (ProgressSoraV2.getProgressFromSoraV2 env fetch videoId).2
    = Return {| Progress.id := Upstream.id data;
                Progress.progress := Prim (Upstream.progress data);
                Progress.status := Prim (Upstream.status data);
                Progress.currentStep := Upstream.current_step data;
                Progress.estimatedTimeRemaining :=
                  Upstream.estimated_time_remaining data |}.
Proof.
  intros Hf Hb Hl Hp Hc.
  rewrite (ProgressOpenAI_ok env fetch response data first Hf Hb),
          (ProgressSoraV2_ok env fetch response data first Hf Hb).
  unfold ProgressOpenAI.transform, ProgressSoraV2.transform.
  destruct (Upstream.status data) as [| | | |s] eqn:Hs; try done.
  assert (ProgressOpenAI.mapSoraStatus (JStr s) = str s) as ->.
  { apply lifecycle_tokens in Hl as [->|[->|[->| ->]]]; reflexivity. }
  unfold or, orPrim. cbn [truthy]. rewrite Hp, Hc. cbv iota.
  cbn [truthy]. by rewrite Hp.
Qed.

Lemma progress_routes_agree_witness :
  (ProgressOpenAI.getProgressFromSoraV2 Sample.env
     (Sample.sends Fixture.rendering) "v1").2
  = (ProgressSoraV2.getProgressFromSoraV2 Sample.env
       (Sample.sends Fixture.rendering) "v1").2.
Proof.
  apply (proj1 (progress_routes_agree Sample.env _ _ Fixture.rendering None
                  "v1" (sends_delivers _) (sends_carries _)
                  eq_refl eq_refl eq_refl)).
Defined.

(** ** Trimming *)

Lemma append_String (a : ascii) (s t : string) :
  String a s +:+ t = String a (s +:+ t).
Proof. reflexivity. Qed.

Lemma append_empty_l (s : string) : "" +:+ s = s.
Proof. reflexivity. Qed.

Lemma append_assoc (s1 s2 s3 : string) :
  (s1 +:+ s2) +:+ s3 = s1 +:+ (s2 +:+ s3).
Proof.
  induction s1 as [|a s1 IH]; [done|]. rewrite !append_String. by f_equal.
Qed.

Lemma rev_app_append (s1 s2 : string) :
  String.rev_app s1 s2 = String.rev s1 +:+ s2.
Proof.
  unfold String.rev. revert s2.
  induction s1 as [|a s1 IH]; intros s2; cbn [String.rev_app]; [done|].
  rewrite (IH (String a "")), (IH (String a s2)).
  by rewrite append_assoc.
Qed.

Lemma rev_String (a : ascii) (s : string) :
  String.rev (String a s) = String.rev s +:+ String a "".
Proof. unfold String.rev at 1. cbn [String.rev_app]. apply rev_app_append. Qed.

Lemma append_empty_r (s : string) : s +:+ "" = s.
Proof.
  induction s as [|a s IH]; [done|]. rewrite append_String. by f_equal.
Qed.

Lemma rev_append (s1 s2 : string) :
  String.rev (s1 +:+ s2) = String.rev s2 +:+ String.rev s1.
Proof.
  induction s1 as [|a s1 IH].
  - by rewrite append_empty_l, append_empty_r.
  - rewrite append_String, !rev_String, IH. by rewrite append_assoc.
Qed.

Lemma rev_involutive (s : string) : String.rev (String.rev s) = s.
Proof.
  induction s as [|a s IH]; [done|].
  rewrite rev_String, rev_append, IH. reflexivity.
Qed.

(** [trimStart] and [trimStartRev] return a suffix that has nothing more
    to remove. *)
Lemma trimStart_spec (n : nat) (s : string) :
  (String.length s ≤ n)%nat →
  leads (trimStart s) = false ∧ ∃ p, s = p +:+ trimStart s.
Proof.
  revert s. induction n as [|n IH]; intros s Hn.
  { destruct s; [split; [done|by exists ""]|cbn in Hn; lia]. }
  destruct s as [|a s1]; [split; [done|by exists ""]|].
  cbn [trimStart]. destruct (ws1 a) eqn:H1.
  { destruct (IH s1) as [Hl [p Hp]]; [cbn in Hn; lia|].
    split; [done|]. exists (String a p). rewrite append_String. by rewrite <- Hp. }
  destruct s1 as [|b s2].
  { split; [cbn; by rewrite H1|by exists ""]. }
  destruct (ws2 a b) eqn:H2.
  { destruct (IH s2) as [Hl [p Hp]]; [cbn in Hn; lia|].
    split; [done|]. exists (String a (String b p)). rewrite !append_String. by rewrite <- Hp. }
  destruct s2 as [|c s3].
  { split; [cbn; by rewrite H1, H2|by exists ""]. }
  destruct (ws3 a b c) eqn:H3.
  { destruct (IH s3) as [Hl [p Hp]]; [cbn in Hn; lia|].
    split; [done|]. exists (String a (String b (String c p))).
    rewrite !append_String. by rewrite <- Hp. }
  split; [cbn; by rewrite H1, H2, H3|by exists ""].
Qed.

Lemma trimStartRev_spec (n : nat) (s : string) :
  (String.length s ≤ n)%nat →
  leadsRev (trimStartRev s) = false ∧ ∃ p, s = p +:+ trimStartRev s.
Proof.
  revert s. induction n as [|n IH]; intros s Hn.
  { destruct s; [split; [done|by exists ""]|cbn in Hn; lia]. }
  destruct s as [|a s1]; [split; [done|by exists ""]|].
  cbn [trimStartRev]. destruct (ws1 a) eqn:H1.
  { destruct (IH s1) as [Hl [p Hp]]; [cbn in Hn; lia|].
    split; [done|]. exists (String a p). rewrite append_String. by rewrite <- Hp. }
  destruct s1 as [|b s2].
  { split; [cbn; by rewrite H1|by exists ""]. }
  destruct (ws2 b a) eqn:H2.
  { destruct (IH s2) as [Hl [p Hp]]; [cbn in Hn; lia|].
    split; [done|]. exists (String a (String b p)). rewrite !append_String. by rewrite <- Hp. }
  destruct s2 as [|c s3].
  { split; [cbn; by rewrite H1, H2|by exists ""]. }
  destruct (ws3 c b a) eqn:H3.
  { destruct (IH s3) as [Hl [p Hp]]; [cbn in Hn; lia|].
    split; [done|]. exists (String a (String b (String c p))).
    rewrite !append_String. by rewrite <- Hp. }
  split; [cbn; by rewrite H1, H2, H3|by exists ""].
Qed.

Lemma trimStart_fixed (s : string) : leads s = false → trimStart s = s.
Proof.
  destruct s as [|a [|b [|c s3]]]; cbn; try done.
  - by intros ->%orb_false_iff%proj1.
  - intros [-> [-> _]%orb_false_iff]%orb_false_iff. done.
  - intros [-> [-> ->]%orb_false_iff]%orb_false_iff. done.
Qed.

Lemma trimStartRev_fixed (s : string) : leadsRev s = false → trimStartRev s = s.
Proof.
  destruct s as [|a [|b [|c s3]]]; cbn; try done.
  - by intros ->%orb_false_iff%proj1.
  - intros [-> [-> _]%orb_false_iff]%orb_false_iff. done.
  - intros [-> [-> ->]%orb_false_iff]%orb_false_iff. done.
Qed.

(** What leads a string leads every extension of it. *)
Lemma leads_prefix (t q : string) : leads (t +:+ q) = false → leads t = false.
Proof.
  destruct t as [|a [|b [|c t3]]]; rewrite ?append_String, ?append_empty_l;
    cbn [leads]; try done.
  - destruct (ws1 a); [done|]. by destruct q.
  - destruct (ws1 a); [done|]. destruct (ws2 a b); [done|]. by destruct q.
Qed.

(** Trimming a trimmed string changes nothing. *)
Lemma trim_idempotent (s : string) : trim (trim s) = trim s.
Proof.
  unfold trim at 2.
  destruct (trimStart_spec (String.length s) s) as [Hu _]; [lia|].
  set (u := trimStart s) in *.
  destruct (trimStartRev_spec (String.length (String.rev u)) (String.rev u))
    as [Hw [p Hp]]; [lia|].
  set (w := trimStartRev (String.rev u)) in *.
  assert (u = String.rev w +:+ String.rev p) as Hprefix.
  { by rewrite <- (rev_involutive u), Hp, rev_append. }
  unfold trim.
  rewrite (trimStart_fixed (String.rev w)).
  - by rewrite rev_involutive, trimStartRev_fixed.
  - apply (leads_prefix _ (String.rev p)). by rewrite <- Hprefix.
Qed.


(** ** Submit: the handler, the form and what they agree on *)

Lemma orPrim_truthy (a b : prim) :
  truthy_prim b = true → truthy_prim (orPrim a b) = true.
Proof. intros Hb. unfold orPrim. by destruct (truthy_prim a) eqn:E. Qed.

(** X9.  What submit sends is what it echoes.  For a body that passes the
    validation, with a key and an [ok] upstream object, the handler issues
    one POST whose prompt is the trimmed prompt of the body, not empty, and
    answers 200 with a record that echoes that prompt and the duration that
    was sent, has a truthy duration, resolution, style and aspect ratio
    (the defaults fill what the body leaves out), and takes its id from the
    upstream object as it is. *)
Theorem submit_echoes_what_it_sends
    (env : Env) (fetch : Upstream.Call → Upstream.Outcome)
    (response : Upstream.Response)
    (data : Upstream.Payload) (first : option Upstream.Payload)
    (body : SoraVideoRequest) (size : value) :
  delivers fetch response →
  carries response data first →
  missing (OPENAI_API_KEY env) = false →
  accepted body →
  Gen.requestSize env body = Return size →
  ∃ call sent v,
    Gen.POST env fetch (Fields body)
    = ([call],
       {| http_status := 200;
          json := {| success := true; data := Some v; error := None;
                     message := Some "Video generation started successfully" |} |})
    ∧ Upstream.method call = "POST"
    ∧ Upstream.content call = Some sent
    ∧ Upstream.create_prompt sent = trim (asString (prompt body))
    ∧ Upstream.create_prompt sent ≠ ""
    ∧ Upstream.size sent = size
    ∧ Video.prompt v = JStr (Upstream.create_prompt sent)
    ∧ Video.duration v = Upstream.create_duration sent
    ∧ truthy_prim (Video.duration v) = true
    ∧ truthy_prim (Video.resolution v) = true
    ∧ truthy_prim (Video.style v) = true
    ∧ truthy_prim (Video.aspectRatio v) = true
    ∧ Video.id v = Upstream.id (default data first).
Proof.
  intros Hf [Hok Hb] Hk Ha Hs.
  rewrite (POST_accepted env fetch body Ha Hk).
  destruct Ha as (p & Hp & Hne).
  unfold Gen.callSoraV2API. rewrite Hs. cbn [fst snd].
  rewrite Hf, Hok, Hb. cbn [negb].
  eexists _, _, _. split; [reflexivity|].
  cbn [Upstream.method Upstream.content Upstream.create_prompt Upstream.size
       Upstream.create_duration Video.prompt Video.duration Video.resolution
       Video.style Video.aspectRatio Video.id].
  rewrite Hp. cbn [asString].
  split; [reflexivity|]. split; [reflexivity|].
  cbn [Upstream.create_prompt Upstream.size Upstream.create_duration].
  repeat split; try done; try by apply orPrim_truthy.
Qed.

Lemma submit_echoes_what_it_sends_witness :
  ∃ call sent v,
    Gen.POST Sample.env (Sample.sends Upstream.empty)
      (Fields (Sample.request (JStr "  a cat ") JUndefined JUndefined))
    = ([call],
       {| http_status := 200;
          json := {| success := true; data := Some v; error := None;
                     message := Some "Video generation started successfully" |} |})
    ∧ Upstream.method call = "POST"
    ∧ Upstream.content call = Some sent
    ∧ Upstream.create_prompt sent = "a cat"
    ∧ Upstream.create_prompt sent ≠ ""
    ∧ Upstream.size sent = str "1920x1080"
    ∧ Video.prompt v = JStr (Upstream.create_prompt sent)
    ∧ Video.duration v = Upstream.create_duration sent
    ∧ truthy_prim (Video.duration v) = true
    ∧ truthy_prim (Video.resolution v) = true
    ∧ truthy_prim (Video.style v) = true
    ∧ truthy_prim (Video.aspectRatio v) = true
    ∧ Video.id v = JUndefined.
Proof.
  apply (submit_echoes_what_it_sends Sample.env
           (Sample.sends Upstream.empty)
           {| Upstream.code := 200; Upstream.statusText := "OK";
              Upstream.body := Upstream.Object Upstream.empty None |}
           Upstream.empty None
           (Sample.request (JStr "  a cat ") JUndefined JUndefined)
           (str "1920x1080")).
  - apply sends_delivers.
  - apply sends_carries.
  - reflexivity.
  - exists "  a cat ". split; [reflexivity|]. by vm_compute.
  - by vm_compute.
Defined.

(** *** The form *)

Lemma form_request_built (s : Generator.State) :
  Generator.blankPrompt s = false →
  Generator.aspectRatio s = "16:9" ∨ Generator.aspectRatio s = "9:16" →
  form_request (Generator.request s).
Proof.
  intros Hb Ha. exists (trim (Generator.prompt s)).
  unfold Generator.blankPrompt in Hb. apply String.eqb_neq in Hb.
  cbn. repeat split; try done.
  - apply trim_idempotent.
  - destruct Ha as [-> | ->]; auto.
Qed.

Lemma count_cons {A : Type} (f : A → bool) (x : A) (l : list A) :
  length (List.filter f (x :: l))
  = ((if f x then 1 else 0) + length (List.filter f l))%nat.
Proof. cbn. by destruct (f x). Qed.

Lemma generator_step_inv (s s' : Generator.State) (e : Generator.Event) :
  generator_inv s → Generator.step s e = Some s' → generator_inv s'.
Proof.
  intros (Hone & Hgen & Hcount & Har) Hstep.
  unfold generator_inv, requests, callbacks in *.
  destruct e as [text|o| |r]; cbn in Hstep.
  - destruct (Generator.isGenerating s) eqn:Hg; [done|].
    injection Hstep as <-. cbn. tauto.
  - destruct (Generator.isGenerating s) eqn:Hg; [done|].
    injection Hstep as <-. cbn.
    repeat split; try tauto. destruct o; auto.
  - unfold Generator.submitDisabled in Hstep.
    destruct (Generator.isGenerating s) eqn:Hg; [done|].
    destruct (Generator.blankPrompt s) eqn:Hb; [done|].
    injection Hstep as <-. unfold Generator.handleSubmit. rewrite Hb.
    assert (Generator.inFlight s = 0%nat) as H0.
    { destruct (Generator.inFlight s) as [|[|n]]; [done| |lia].
      destruct Hgen as [_ Hgen]. by specialize (Hgen eq_refl). }
    cbn [Generator.inFlight Generator.isGenerating Generator.log
         Generator.aspectRatio].
    rewrite !count_cons, H0. cbn [isRequest isCallback].
    repeat split; try done; lia.
  - destruct (Generator.inFlight s) as [|n] eqn:Hn; [done|].
    injection Hstep as <-.
    assert (n = 0%nat) as -> by lia.
    unfold Generator.resume.
    destruct r as [response|err];
      [destruct (success response), (data response)|];
      cbn [Generator.inFlight Generator.isGenerating Generator.log
           Generator.aspectRatio];
      rewrite ?count_cons; cbn [isRequest isCallback];
      (repeat split; try done; lia).
Qed.

Lemma generator_step_requests (s s' : Generator.State) (e : Generator.Event) :
  generator_inv s →
  (∀ r, Generator.GenerateVideo r ∈ Generator.log s → form_request r) →
  Generator.step s e = Some s' →
  ∀ r, Generator.GenerateVideo r ∈ Generator.log s' → form_request r.
Proof.
  intros (_ & _ & _ & Har) Hlog Hstep r.
  destruct e as [text|o| |r0]; cbn in Hstep.
  - destruct (Generator.isGenerating s); [done|]. injection Hstep as <-.
    apply Hlog.
  - destruct (Generator.isGenerating s); [done|]. injection Hstep as <-.
    apply Hlog.
  - unfold Generator.submitDisabled in Hstep.
    destruct (Generator.isGenerating s); [done|].
    destruct (Generator.blankPrompt s) eqn:Hb; [done|].
    injection Hstep as <-. unfold Generator.handleSubmit. rewrite Hb.
    cbn [Generator.log]. intros [[= ->]|Hin]%elem_of_cons;
      [by apply form_request_built|by apply Hlog].
  - destruct (Generator.inFlight s) as [|n]; [done|]. injection Hstep as <-.
    unfold Generator.resume.
    destruct r0 as [response|err];
      [destruct (success response), (data response)|];
      cbn [Generator.log]; try apply Hlog.
    intros [[=]|Hin]%elem_of_cons. by apply Hlog.
Qed.

Lemma generator_inv_initial : generator_inv Generator.initial.
Proof.
  unfold generator_inv, requests, callbacks. cbn.
  repeat split; try done; try lia. by left.
Qed.

Lemma generator_run_inv (es : list Generator.Event) (s s' : Generator.State) :
  generator_inv s →
  (∀ r, Generator.GenerateVideo r ∈ Generator.log s → form_request r) →
  Generator.run s es = Some s' →
  generator_inv s'
  ∧ ∀ r, Generator.GenerateVideo r ∈ Generator.log s' → form_request r.
Proof.
  revert s. induction es as [|e es IH]; intros s Hinv Hlog Hrun; cbn in Hrun.
  - by injection Hrun as <-.
  - destruct (Generator.step s e) as [s1|] eqn:Hstep; [|done].
    eapply IH; [| |done].
    + by eapply generator_step_inv.
    + by eapply generator_step_requests.
Qed.

(** X10.  The form never has two submissions in flight.  In every run of
    the form from its mount, at most one request is in flight,
    [isGenerating] holds exactly while one is, and [onVideoGenerated] has
    been called at most once per request that has settled. *)
Theorem form_submits_one_at_a_time
    (es : list Generator.Event) (s : Generator.State) :
  Generator.run Generator.initial es = Some s →
  (Generator.inFlight s ≤ 1)%nat
  ∧ (Generator.isGenerating s = true ↔ Generator.inFlight s = 1%nat)
  ∧ (callbacks s + Generator.inFlight s ≤ requests s)%nat.
Proof.
  intros Hrun.
  destruct (generator_run_inv es Generator.initial s generator_inv_initial)
    as [(H1 & H2 & H3 & _) _]; [|done|done].
  intros r H. by apply elem_of_nil in H.
Qed.

Lemma form_submits_one_at_a_time_witness :
  (1 ≤ 1)%nat ∧ (true = true ↔ 1%nat = 1%nat)
  ∧ (0 + 1 ≤ 1)%nat.
Proof.
  apply (form_submits_one_at_a_time
           [Generator.Type_ " a cat "; Generator.Pick Generator.Portrait;
            Generator.Submit]
           (Generator.handleSubmit
              {| Generator.prompt := " a cat "; Generator.aspectRatio := "9:16";
                 Generator.isGenerating := false; Generator.error := None;
                 Generator.inFlight := 0; Generator.log := [] |})).
  reflexivity.
Defined.

Lemma form_request_size (env : Env) (r : SoraVideoRequest) :
  form_request r →
  Gen.requestSize env r
  = Return (str (if strictEqStr (aspectRatio r) "16:9"
                 then "1920x1080" else "1080x1920")).
Proof.
  intros (p & Hp & Hne & Htrim & Hd & Hr & Hs & Ha).
  destruct Ha as [Ha|Ha]; rewrite requestSize_rule; rewrite ?Hr, ?Ha; reflexivity.
Qed.

(** X11.  Every request the form sends passes the validation of the
    submit handler.  In every run of the form from its mount, each request
    it has sent carries a trimmed, non-empty prompt, one of the two aspect
    ratios of its buttons and no resolution; the handler, given a key,
    never answers it 400, and sends upstream that very prompt with the
    1080p size of the aspect ratio: 1920x1080 for 16:9 and 1080x1920 for
    9:16. *)
Theorem form_requests_pass_validation
    (es : list Generator.Event) (s : Generator.State)
    (r : SoraVideoRequest)
    (env : Env) (fetch : Upstream.Call → Upstream.Outcome) :
  Generator.run Generator.initial es = Some s →
  Generator.GenerateVideo r ∈ Generator.log s →
  missing (OPENAI_API_KEY env) = false →
  form_request r
  ∧ http_status (Gen.POST env fetch (Fields r)).2 ≠ 400
  ∧ ∃ call sent,
      (Gen.POST env fetch (Fields r)).1 = [call]
      ∧ Upstream.content call = Some sent
      ∧ prompt r = JStr (Upstream.create_prompt sent)
      ∧ Upstream.size sent
        = str (if strictEqStr (aspectRatio r) "16:9"
               then "1920x1080" else "1080x1920").
Proof.
  intros Hrun Hin Hk.
  destruct (generator_run_inv es Generator.initial s generator_inv_initial)
    as [_ Hlog]; [|done|].
  { intros r0 H. by apply elem_of_nil in H. }
  pose proof (Hlog r Hin) as Hform. split; [done|].
  pose proof (form_request_size env r Hform) as Hsize.
  destruct Hform as (p & Hp & Hne & Htrim & _).
  assert (accepted r) as Hacc.
  { exists p. split; [done|]. by rewrite Htrim. }
  rewrite (POST_accepted env fetch r Hacc Hk). cbn [fst snd]. split.
  - by destruct (Gen.callSoraV2API env fetch r).2.
  - unfold Gen.callSoraV2API. rewrite Hsize. cbn [fst].
    eexists _, _. split; [reflexivity|].
    cbn [Upstream.content Upstream.create_prompt Upstream.size].
    split; [reflexivity|].
    cbn [Upstream.create_prompt Upstream.size].
    rewrite Hp. cbn [asString]. by rewrite Htrim.
Qed.

Lemma form_requests_pass_validation_witness :
  form_request (Sample.request (JStr "a cat") JUndefined (JStr "9:16"))
  ∧ http_status
      (Gen.POST Sample.env (Sample.sends Upstream.empty)
         (Fields (Sample.request (JStr "a cat") JUndefined (JStr "9:16")))).2
    ≠ 400
  ∧ ∃ call sent,
      (Gen.POST Sample.env (Sample.sends Upstream.empty)
         (Fields (Sample.request (JStr "a cat") JUndefined (JStr "9:16")))).1
      = [call]
      ∧ Upstream.content call = Some sent
      ∧ JStr "a cat" = JStr (Upstream.create_prompt sent)
      ∧ Upstream.size sent = str "1080x1920".
Proof.
  apply (form_requests_pass_validation
           [Generator.Type_ " a cat "; Generator.Pick Generator.Portrait;
            Generator.Submit]
           (Generator.handleSubmit
              {| Generator.prompt := " a cat "; Generator.aspectRatio := "9:16";
                 Generator.isGenerating := false; Generator.error := None;
                 Generator.inFlight := 0; Generator.log := [] |})
           (Sample.request (JStr "a cat") JUndefined (JStr "9:16"))
           Sample.env (Sample.sends Upstream.empty) eq_refl).
  - vm_compute. constructor.
  - reflexivity.
Defined.

(** ** The page *)

Lemma page_run_app (s : Page.State) (es1 es2 : list Page.Event) :
  Page.run s (es1 ++ es2) = Page.run (Page.run s es1) es2.
Proof. unfold Page.run. apply fold_left_app. Qed.

Lemma page_nav_keeps (s : Page.State) (es : list Page.Event) :
  forallb isNav es = true →
  Page.currentVideoId (Page.run s es) = Page.currentVideoId s
  ∧ Page.showProgress (Page.run s es) = Page.showProgress s
  ∧ Page.galleryRefresh (Page.run s es) = Page.galleryRefresh s.
Proof.
  revert s. induction es as [|e es IH]; intros s H; [done|].
  cbn in H. apply andb_true_iff in H as [He Hes].
  destruct e as [item| |]; try done.
  change (Page.run s (Page.Nav item :: es))
    with (Page.run (Page.setActiveNav item s) es).
  destruct (IH (Page.setActiveNav item s) Hes) as (-> & -> & ->). done.
Qed.

(** X12.  A generated video without an id leaves the video tab empty.
    When [handleVideoGenerated] is called with a falsy id (absent, null or
    empty), the video tab shows neither the form nor the tracker above the
    gallery, and no change of tab brings either back; with a truthy id it
    shows the tracker for that id, across changes of tab. *)
Theorem video_without_id_blanks_the_tab
    (s : Page.State) (videoId : prim) (es : list Page.Event) :
  forallb isNav es = true →
  (truthy_prim videoId = false →
   Page.render (Page.setActiveNav Page.video
                  (Page.run (Page.handleVideoGenerated videoId s) es))
   = Page.VideoStudio Page.Blank (Page.galleryRefresh s))
  ∧ (truthy_prim videoId = true →
     Page.render (Page.setActiveNav Page.video
                    (Page.run (Page.handleVideoGenerated videoId s) es))
     = Page.VideoStudio (Page.TrackerFor videoId) (Page.galleryRefresh s)).
Proof.
  intros Hes.
  destruct (page_nav_keeps (Page.handleVideoGenerated videoId s) es Hes)
    as (Hid & Hshow & Hgal).
  unfold Page.render, Page.slot.
  cbn [Page.setActiveNav Page.activeNav Page.showProgress Page.currentVideoId
       Page.galleryRefresh].
  rewrite Hid, Hshow, Hgal. cbn.
  split; by intros ->.
Qed.

Lemma video_without_id_blanks_the_tab_witness :
  Page.render
    (Page.setActiveNav Page.video
       (Page.run (Page.handleVideoGenerated JUndefined Page.initial)
                 [Page.Nav Page.video; Page.Nav Page.playground]))
  = Page.VideoStudio Page.Blank 0.
Proof.
  apply (proj1 (video_without_id_blanks_the_tab Page.initial JUndefined
                  [Page.Nav Page.video; Page.Nav Page.playground] eq_refl)).
  reflexivity.
Defined.

Lemma page_step_refresh (s : Page.State) (e : Page.Event) :
  Page.galleryRefresh (Page.step s e)
  = (Page.galleryRefresh s + if isCompletion e then 1 else 0)%nat.
Proof. destruct e; cbn; lia. Qed.

(** X13.  The gallery is refreshed once per completed generation.  After
    any sequence of events the refresh counter has grown by the number of
    completions in it; and right after a completion the video tab shows the
    form again, with no current video. *)
Theorem gallery_refresh_counts_completions
    (s : Page.State) (es : list Page.Event) :
  Page.galleryRefresh (Page.run s es)
  = (Page.galleryRefresh s + length (List.filter isCompletion es))%nat
  ∧ Page.slot (Page.run s (es ++ [Page.GenerationComplete])) = Page.Form
  ∧ Page.currentVideoId (Page.run s (es ++ [Page.GenerationComplete])) = JNull.
Proof.
  split.
  - revert s. induction es as [|e es IH]; intros s; [cbn; lia|].
    change (Page.run s (e :: es)) with (Page.run (Page.step s e) es).
    rewrite IH, page_step_refresh, count_cons. lia.
  - by rewrite page_run_app.
Qed.

(** ** More on the polling component *)

Section TrackerMore.

Import Tracker.

Implicit Types (s : State) (e : Event) (i j : nat) (a : Activation).

(** X14.  A failed poll does not stop the polling.  When a call of an
    activation that is not cancelled settles with a rejection, or with an
    envelope that is not a success with data, the error state is set, the
    activation stays uncancelled with its interval as it was, and the next
    tick of its interval issues a new fetch. *)
Theorem failed_poll_keeps_polling
    (s : State) (i : nat) (a : Activation) (n : nat) (r : Settled) :
  activations s !! i = Some a →
  isCancelled a = false →
  interval a = true →
  inFlight a = S n →
  (∃ err, r = Failed err)
  ∨ (∃ response, r = Fulfilled response
                 ∧ (success response = false ∨ data response = None)) →
  ∃ s1 a1 s2,
    step s (Settle i r) = Some s1
    ∧ is_Some (error s1)
    ∧ progress s1 = progress s
    ∧ activations s1 !! i = Some a1
    ∧ isCancelled a1 = false ∧ interval a1 = true
    ∧ step s1 (Tick i) = Some s2
    ∧ fetches i s2 = S (fetches i s1)
    ∧ completions i s2 = completions i s.
Proof.
  intros Ha Hc Hi Hn Hr.
  assert (i < length (activations s))%nat as Hlt by by eapply lookup_lt_Some.
  assert (∃ msg,
            fetchProgress_resume i a n r s
            = {| phase := phase s; progress := progress s; error := Some msg;
                 activations := setFlag i a false n (activations s);
                 current := current s;
                 log := (i, SetError msg) :: log s |}) as [msg Hres].
  { unfold fetchProgress_resume.
    destruct Hr as [[err ->]|(response & -> & Hbad)]; rewrite Hc.
    - by eexists.
    - destruct Hbad as [-> | ->]; [by eexists|].
      destruct (success response); by eexists. }
  eexists _, _, _. split.
  { cbn. rewrite Ha, Hn. reflexivity. }
  rewrite Hres. cbn [error progress activations].
  split; [by eexists|]. split; [done|]. split.
  { unfold setFlag. by apply list_lookup_insert_eq. }
  cbn [isCancelled interval]. split; [done|]. split; [done|]. split.
  { cbn. unfold setFlag. rewrite list_lookup_insert_eq by done.
    cbn. rewrite Hi. reflexivity. }
  unfold fetches, completions, fetchProgress_call. cbn [isCancelled log].
  rewrite !effectsOf_same. split; reflexivity.
Qed.

Lemma failed_poll_keeps_polling_witness :
  ∃ s1 a1 s2,
    step (activate "v1" fresh) (Settle 0 (Failed (Some "network down")))
    = Some s1
    ∧ is_Some (error s1)
    ∧ progress s1 = None
    ∧ activations s1 !! 0%nat = Some a1
    ∧ isCancelled a1 = false ∧ interval a1 = true
    ∧ step s1 (Tick 0) = Some s2
    ∧ fetches 0 s2 = S (fetches 0 s1)
    ∧ completions 0 s2 = 0%nat.
Proof.
  apply (failed_poll_keeps_polling (activate "v1" fresh) 0
           {| videoId := "v1"; isCancelled := false; inFlight := 1;
              interval := true |}
           0 (Failed (Some "network down"))
           eq_refl eq_refl eq_refl eq_refl
           (or_introl (ex_intro _ (Some "network down") eq_refl))).
Defined.

Lemma cleanup_observable i s :
  progress (cleanup i s) = progress s ∧ error (cleanup i s) = error s.
Proof. unfold cleanup. by destruct (activations s !! i). Qed.

Lemma step_keeps_error_shown s e s' :
  missing (error s) = false →
  (∀ i, e ≠ Settle i (Failed (Some ""))) →
  step s e = Some s' → missing (error s') = false.
Proof.
  intros Herr Hne Hstep. destruct e as [vid| |i|i r].
  - apply step_Render in Hstep as ->. unfold activate.
    destruct (String.eqb vid ""); cbn [error mounted];
      destruct (current s); by rewrite ?(proj2 (cleanup_observable _ _)).
  - apply step_Unmount in Hstep as ->. cbn [error tornDown].
    destruct (current s); by rewrite ?(proj2 (cleanup_observable _ _)).
  - cbn in Hstep. destruct (activations s !! i) as [a|]; [|done].
    destruct (interval a); [|done]. injection Hstep as <-.
    unfold fetchProgress_call. by destruct (isCancelled a).
  - cbn in Hstep. destruct (activations s !! i) as [a|]; [|done].
    destruct (inFlight a) as [|n]; [done|]. injection Hstep as <-.
    unfold fetchProgress_resume.
    destruct (isCancelled a); [by destruct r|].
    destruct r as [response|[m|]]; cbn [error].
    + destruct (success response), (data response) as [d|];
        try (destruct (Api.error response) as [m|] eqn:Hm; cbn;
             [by destruct (String.eqb m "") eqn:Hmm|done]).
      destruct (statusIs d "completed"); [done|].
      by destruct (statusIs d "failed").
    + destruct m as [|c m]; [by destruct (Hne i)|done].
    + done.
Qed.

(** X15.  Nothing clears the error of the component.  Once a non-empty
    error text is set, it stays set through every later event (as long as
    no later rejection carries an [Error] with an empty message), whatever
    the polls return afterwards; so the component renders the error panel
    from then on, never the progress card. *)
Theorem error_panel_is_final
    (s s' : State) (es : list Event) :
  missing (error s) = false →
  (∀ i, Settle i (Failed (Some "")) ∉ es) →
  run s es = Some s' →
  ∃ msg, TrackerView.render s' = TrackerView.ErrorPanel msg ∧ msg ≠ "".
Proof.
  revert s. induction es as [|e es IH]; intros s Herr Hne Hrun; cbn in Hrun.
  - injection Hrun as <-. unfold TrackerView.render. rewrite Herr. cbn.
    eexists. split; [done|].
    destruct (error s) as [m|]; [|done]. cbn in *.
    by apply String.eqb_neq in Herr.
  - destruct (step s e) as [s1|] eqn:Hstep; [|done].
    apply (IH s1); [|intros i Hi; apply (Hne i); by right|done].
    eapply step_keeps_error_shown; [done| |done].
    intros i ->. apply (Hne i). by left.
Qed.

Lemma error_panel_is_final_witness :
  ∃ msg,
    TrackerView.render
      (default fresh
         (run (default fresh
                 (run fresh [Render "v1";
                             Settle 0 (Failed (Some "network down"))]))
              [Tick 0;
               Settle 0 (Fulfilled
                           (Sample.envelope (Sample.progressOf "processing" 50)))]))
    = TrackerView.ErrorPanel msg ∧ msg ≠ "".
Proof.
  apply (error_panel_is_final
           (default fresh
              (run fresh [Render "v1";
                          Settle 0 (Failed (Some "network down"))]))
           _
           [Tick 0;
            Settle 0 (Fulfilled
                        (Sample.envelope (Sample.progressOf "processing" 50)))]
           eq_refl).
  - intros i H. vm_compute in H.
    repeat (apply elem_of_cons in H as [H|H]; [discriminate H|]).
    by apply elem_of_nil in H.
  - reflexivity.
Defined.

(** *** One activation at a time *)

Lemma single_fresh : single_activation fresh.
Proof.
  split; [done|]. intros i a H. cbn in H. by rewrite ?lookup_nil in H.
Qed.

Lemma cleaned_quiet s :
  single_activation s →
  quiet match current s with
        | Some i => cleanup i s
        | None => s
        end
  ∧ length (activations match current s with
                        | Some i => cleanup i s
                        | None => s
                        end) = length (activations s).
Proof.
  intros [Hb Hl]. destruct (current s) as [i|] eqn:Hc.
  - split; [|apply length_cleanup].
    pose proof (Hb i eq_refl) as Hlt.
    destruct (lookup_lt_is_Some_2 _ _ Hlt) as [a Ha].
    unfold cleanup. rewrite Ha. split; [done|]. cbn [activations].
    intros j b Hj Hlive. destruct (decide (j = i)) as [->|Hne].
    + rewrite list_lookup_insert_eq in Hj by done. injection Hj as <-.
      by destruct Hlive.
    + rewrite list_lookup_insert_ne in Hj by done.
      pose proof (Hl j b Hj Hlive) as H. by injection H.
  - split; [|done]. split; [done|]. intros j b Hj Hlive.
    by pose proof (Hl j b Hj Hlive) as H.
Qed.

Lemma single_activate vid s : quiet s → single_activation (activate vid s).
Proof.
  intros [Hc Hq]. unfold activate. destruct (String.eqb vid "").
  - split; cbn [mounted current activations].
    + intros i Hi. by rewrite Hc in Hi.
    + intros i a Ha Hlive. by destruct (Hq i a Ha).
  - split; cbn [current activations].
    + intros i [= <-]. rewrite length_app. cbn. lia.
    + intros i a Ha Hlive. f_equal.
      apply lookup_app_Some in Ha as [Ha|[Hge Ha]];
        [by destruct (Hq i a Ha)|].
      destruct (i - length (activations s))%nat as [|k] eqn:Hk; [lia|].
      by rewrite lookup_cons, lookup_nil in Ha.
Qed.

Lemma single_step s e s' :
  single_activation s → step s e = Some s' → single_activation s'.
Proof.
  intros Hinv Hstep. destruct e as [vid| |i|i r].
  - apply step_Render in Hstep as ->. apply single_activate.
    by apply cleaned_quiet.
  - apply step_Unmount in Hstep as ->.
    destruct (cleaned_quiet s Hinv) as [[Hc Hq] _].
    split; cbn [tornDown current activations].
    + intros i Hi. by rewrite Hc in Hi.
    + intros i a Ha Hlive. by destruct (Hq i a Ha).
  - cbn in Hstep. destruct (activations s !! i) as [a|] eqn:Ha; [|done].
    destruct (interval a) eqn:Hi; [|done]. injection Hstep as <-.
    destruct Hinv as [Hb Hl]. unfold fetchProgress_call.
    destruct (isCancelled a) eqn:Hflag; [by split|].
    split; cbn [current activations].
    + intros j Hj. rewrite length_insert. by apply Hb.
    + intros j b Hj Hlive. destruct (decide (j = i)) as [->|Hne].
      * apply (Hl i a Ha). by left.
      * rewrite list_lookup_insert_ne in Hj by done. by apply (Hl j b).
  - cbn in Hstep. destruct (activations s !! i) as [a|] eqn:Ha; [|done].
    destruct (inFlight a) as [|n]; [done|]. injection Hstep as <-.
    destruct Hinv as [Hb Hl].
    assert (∀ flag,
              (flag = false → isCancelled a = false) →
              single_activation
                {| phase := phase s; progress := progress s; error := error s;
                   activations := setFlag i a flag n (activations s);
                   current := current s; log := log s |}) as Hset.
    { intros flag Hflag. split; cbn [current activations]; unfold setFlag.
      - intros j Hj. rewrite length_insert. by apply Hb.
      - intros j b Hj Hlive. destruct (decide (j = i)) as [->|Hne].
        + rewrite list_lookup_insert_eq in Hj by by eapply lookup_lt_Some.
          injection Hj as <-. apply (Hl i a Ha).
          destruct Hlive as [Hlive|Hlive]; cbn in Hlive;
            [left; by apply Hflag|by right].
        + rewrite list_lookup_insert_ne in Hj by done. by apply (Hl j b). }
    assert (∀ flag p msg l,
              (flag = false → isCancelled a = false) →
              single_activation
                {| phase := phase s; progress := p; error := msg;
                   activations := setFlag i a flag n (activations s);
                   current := current s; log := l |}) as Hany.
    { intros flag p msg l Hflag. exact (Hset flag Hflag). }
    unfold fetchProgress_resume.
    destruct (isCancelled a) eqn:Hflag;
      destruct r as [response|err]; repeat case_match;
      apply Hany; done.
Qed.

Lemma single_run es s s' :
  single_activation s → run s es = Some s' → single_activation s'.
Proof.
  revert s. induction es as [|e es IH]; intros s Hinv Hrun; cbn in Hrun.
  - by injection Hrun as <-.
  - destruct (step s e) as [s1|] eqn:Hstep; [|done].
    eapply IH; [|done]. by eapply single_step.
Qed.

(** *** The ids of the fetches *)

Lemma ids_insert i a b (acts : list Activation) :
  acts !! i = Some a → videoId b = videoId a →
  videoId <$> <[i := b]> acts = videoId <$> acts.
Proof.
  intros Ha Hb. rewrite list_fmap_insert, Hb.
  apply list_insert_id. by rewrite list_lookup_fmap, Ha.
Qed.

Lemma ids_cleanup i s : ids (cleanup i s) = ids s.
Proof.
  unfold ids, cleanup. destruct (activations s !! i) as [a|] eqn:Ha; [|done].
  cbn [activations]. by eapply ids_insert.
Qed.

Lemma ids_fetchProgress_call i a s :
  activations s !! i = Some a → ids (fetchProgress_call i a s) = ids s.
Proof.
  intros Ha. unfold ids, fetchProgress_call.
  destruct (isCancelled a); [done|]. cbn [activations]. by eapply ids_insert.
Qed.

Lemma ids_fetchProgress_resume i a n r s :
  activations s !! i = Some a → ids (fetchProgress_resume i a n r s) = ids s.
Proof.
  intros Ha. unfold ids, fetchProgress_resume, setFlag.
  destruct r as [response|err]; repeat case_match;
    cbn [activations]; by eapply ids_insert.
Qed.

Lemma log_fetchProgress_resume i a n r s j vid :
  (j, GetProgress vid) ∈ log (fetchProgress_resume i a n r s) →
  (j, GetProgress vid) ∈ log s.
Proof.
  unfold fetchProgress_resume.
  destruct r as [response|err]; repeat case_match; cbn [log]; try done;
    repeat (intros [[=]|Hin]%elem_of_cons; revert Hin); done.
Qed.

Lemma named_fresh : fetches_named fresh.
Proof.
  split.
  - intros vid H. by apply elem_of_nil in H.
  - intros i vid H. by apply elem_of_nil in H.
Qed.

Lemma named_cleanup i s : fetches_named s → fetches_named (cleanup i s).
Proof.
  intros [H1 H2]. unfold fetches_named.
  rewrite ids_cleanup, cleanup_log. by split.
Qed.

Lemma named_activate vid s : fetches_named s → fetches_named (activate vid s).
Proof.
  intros [H1 H2]. unfold activate.
  destruct (String.eqb vid "") eqn:Hv; [done|].
  apply String.eqb_neq in Hv.
  assert (ids {| phase := Mounted; progress := progress s; error := error s;
                 activations :=
                   activations s ++
                   [{| videoId := vid; isCancelled := false; inFlight := 1;
                       interval := true |}];
                 current := Some (length (activations s));
                 log := (length (activations s), GetProgress vid) :: log s |}
          = (ids s ++ [vid])%list) as Hids.
  { unfold ids. cbn [activations]. by rewrite fmap_app. }
  split; rewrite Hids.
  - intros v [Hin|Hin]%elem_of_app; [by apply H1|].
    by apply list_elem_of_singleton in Hin as ->.
  - intros i v. cbn [log]. intros [[= -> ->]|Hin]%elem_of_cons.
    + rewrite lookup_app_r; unfold ids; rewrite length_fmap; [|lia].
      by rewrite Nat.sub_diag.
    + apply lookup_app_l_Some. by apply H2.
Qed.

Lemma named_step s e s' :
  fetches_named s → step s e = Some s' → fetches_named s'.
Proof.
  intros Hinv Hstep. destruct e as [vid| |i|i r].
  - apply step_Render in Hstep as ->. apply named_activate.
    destruct (current s); [by apply named_cleanup|done].
  - apply step_Unmount in Hstep as ->.
    assert (fetches_named match current s with
                          | Some i => cleanup i s
                          | None => s
                          end) as H
      by (destruct (current s); [by apply named_cleanup|done]).
    exact H.
  - cbn in Hstep. destruct (activations s !! i) as [a|] eqn:Ha; [|done].
    destruct (interval a); [|done]. injection Hstep as <-.
    destruct Hinv as [H1 H2]. unfold fetches_named.
    rewrite (ids_fetchProgress_call i a s Ha). split; [done|].
    intros j vid. unfold fetchProgress_call.
    destruct (isCancelled a); [by apply H2|]. cbn [log].
    intros [[= -> ->]|Hin]%elem_of_cons; [|by apply H2].
    unfold ids. by rewrite list_lookup_fmap, Ha.
  - cbn in Hstep. destruct (activations s !! i) as [a|] eqn:Ha; [|done].
    destruct (inFlight a) as [|n]; [done|]. injection Hstep as <-.
    destruct Hinv as [H1 H2]. unfold fetches_named.
    rewrite (ids_fetchProgress_resume i a n r s Ha). split; [done|].
    intros j vid Hin. apply H2. by eapply log_fetchProgress_resume.
Qed.

Lemma named_run es s s' :
  fetches_named s → run s es = Some s' → fetches_named s'.
Proof.
  revert s. induction es as [|e es IH]; intros s Hinv Hrun; cbn in Hrun.
  - by injection Hrun as <-.
  - destruct (step s e) as [s1|] eqn:Hstep; [|done].
    eapply IH; [|done]. by eapply named_step.
Qed.

(** X16.  The component never asks for the progress of an empty id.  In
    every run from the mount, each call of [getProgress] in the log was
    made for a non-empty id, the id its activation was started for; and a
    render with an empty id issues no call and leaves no activation in
    place. *)
Theorem fetches_carry_the_activation_id
    (es : list Event) (s : State) (i : nat) (vid : string) :
  run fresh es = Some s →
  (i, GetProgress vid) ∈ log s →
  vid ≠ ""
  ∧ (∃ a, activations s !! i = Some a ∧ videoId a = vid)
  ∧ ∀ s', step s (Render "") = Some s' →
          log s' = log s ∧ current s' = None.
Proof.
  intros Hrun Hin.
  destruct (named_run es fresh s named_fresh Hrun) as [H1 H2].
  pose proof (H2 i vid Hin) as Hi. split; [|split].
  - apply H1. by eapply list_elem_of_lookup_2.
  - unfold ids in Hi. rewrite list_lookup_fmap in Hi.
    destruct (activations s !! i) as [a|]; [|done].
    exists a. split; [done|]. by injection Hi.
  - intros s' Hstep. apply step_Render in Hstep as ->.
    unfold activate. cbn [String.eqb mounted log current].
    destruct (current s) as [j|] eqn:Hc; [|done].
    rewrite cleanup_log. split; [done|].
    unfold cleanup. destruct (activations s !! j) eqn:Hj; [done|].
    destruct (single_run es fresh s single_fresh Hrun) as [Hbound _].
    apply lookup_ge_None in Hj. specialize (Hbound j Hc). lia.
Qed.

Lemma fetches_carry_the_activation_id_witness :
  "v1" ≠ ""
  ∧ (∃ a, activations (fetchProgress_call 0
                         {| videoId := "v1"; isCancelled := false;
                            inFlight := 1; interval := true |}
                         (activate "v1" fresh)) !! 0%nat = Some a
          ∧ videoId a = "v1")
  ∧ ∀ s', step (fetchProgress_call 0
                  {| videoId := "v1"; isCancelled := false;
                     inFlight := 1; interval := true |}
                  (activate "v1" fresh)) (Render "") = Some s' →
          log s' = [(0%nat, GetProgress "v1"); (0%nat, GetProgress "v1")]
          ∧ current s' = None.
Proof.
  apply (fetches_carry_the_activation_id [Render "v1"; Tick 0] _ 0 "v1"
           eq_refl).
  vm_compute. constructor.
Defined.

(** X17.  One activation polls at a time.  In every run from the mount,
    an activation whose flag is unset or whose interval is set is the one
    in place; so a tick is only ever taken for the activation in place, and
    a call of any other activation that settles changes neither the
    progress, the error nor the log. *)
Theorem one_activation_polls (es : list Event) (s : State) :
  run fresh es = Some s →
  (∀ i a, activations s !! i = Some a → live a → current s = Some i)
  ∧ (∀ i s', step s (Tick i) = Some s' → current s = Some i)
  ∧ (∀ i r s', step s (Settle i r) = Some s' → current s ≠ Some i →
       progress s' = progress s ∧ error s' = error s ∧ log s' = log s).
Proof.
  intros Hrun.
  destruct (single_run es fresh s single_fresh Hrun) as [_ Hl].
  split; [done|]. split.
  - intros i s' Hstep. cbn in Hstep.
    destruct (activations s !! i) as [a|] eqn:Ha; [|done].
    destruct (interval a) eqn:Hi; [|done]. apply (Hl i a Ha). by right.
  - intros i r s' Hstep Hne. cbn in Hstep.
    destruct (activations s !! i) as [a|] eqn:Ha; [|done].
    destruct (inFlight a) as [|n]; [done|]. injection Hstep as <-.
    destruct (isCancelled a) eqn:Hflag.
    + unfold fetchProgress_resume. rewrite Hflag. by destruct r.
    + destruct Hne. apply (Hl i a Ha). by left.
Qed.

Lemma one_activation_polls_witness :
  (∀ i a,
     activations (activate "v2" (cleanup 0 (activate "v1" fresh))) !! i
     = Some a →
     live a → Some 1%nat = Some i)
  ∧ (∀ i s',
       step (activate "v2" (cleanup 0 (activate "v1" fresh))) (Tick i)
       = Some s' →
       Some 1%nat = Some i)
  ∧ (∀ i r s',
       step (activate "v2" (cleanup 0 (activate "v1" fresh))) (Settle i r)
       = Some s' →
       Some 1%nat ≠ Some i →
       progress s' = None ∧ error s' = None
       ∧ log s' = [(1%nat, GetProgress "v2"); (0%nat, GetProgress "v1")]).
Proof.
  apply (one_activation_polls [Render "v1"; Render "v2"]
           (activate "v2" (cleanup 0 (activate "v1" fresh)))).
  reflexivity.
Defined.

(** X18.  The polls do not wait for one another.  While the flag of an
    activation is unset and its interval set, every tick issues a new call
    whether or not the earlier ones have settled: after [n] ticks in a row
    the activation has [n] more calls in flight and [n] more fetches in the
    log, and the progress and error states are as they were. *)
Theorem polls_do_not_wait
    (n : nat) (s : State) (i : nat) (a : Activation) :
  activations s !! i = Some a →
  isCancelled a = false →
  interval a = true →
  ∃ s' a',
    run s (repeat (Tick i) n) = Some s'
    ∧ activations s' !! i = Some a'
    ∧ inFlight a' = (inFlight a + n)%nat
    ∧ fetches i s' = (fetches i s + n)%nat
    ∧ progress s' = progress s ∧ error s' = error s.
Proof.
  revert s a. induction n as [|n IH]; intros s a Ha Hflag Hi.
  - exists s, a. cbn. repeat split; try done; lia.
  - assert (i < length (activations s))%nat as Hlt by by eapply lookup_lt_Some.
    destruct (IH (fetchProgress_call i a s)
                 {| videoId := videoId a; isCancelled := false;
                    inFlight := S (inFlight a); interval := interval a |})
      as (s' & a' & Hrun & Ha' & Hn & Hf & Hp & He).
    { unfold fetchProgress_call. rewrite Hflag. cbn [activations].
      by apply list_lookup_insert_eq. }
    { done. }
    { done. }
    exists s', a'. split.
    { cbn [repeat run step]. by rewrite Ha, Hi. }
    split; [done|]. cbn [inFlight] in Hn. split; [lia|].
    revert Hf Hp He. unfold fetches, fetchProgress_call. rewrite Hflag.
    cbn [log progress error]. rewrite effectsOf_same. cbn [List.filter isGetProgress length].
    intros -> -> ->. repeat split; lia.
Qed.

Lemma polls_do_not_wait_witness :
  ∃ s' a',
    run (activate "v1" fresh) (repeat (Tick 0) 3) = Some s'
    ∧ activations s' !! 0%nat = Some a'
    ∧ inFlight a' = 4%nat
    ∧ fetches 0 s' = 4%nat
    ∧ progress s' = None ∧ error s' = None.
Proof.
  apply (polls_do_not_wait 3 (activate "v1" fresh) 0
           {| videoId := "v1"; isCancelled := false; inFlight := 1;
              interval := true |}
           eq_refl eq_refl eq_refl).
Defined.

End TrackerMore.
